(** * wind_alert: the forecast-table parser, the strong-wind classifier,
      the grouping of findings and the alert text of [lambda_function.py]

    A shallow embedding of [src/lambda_function.py].  Python integers are
    [Z]; text is [string] (the bytes of its UTF-8 encoding); an exception is a value
    of [exn] carried by [result]; a [dict] is an association list in
    insertion order, because the order of its items drives the alert text. *)

From Stdlib Require Import ZArith List String Ascii Bool Lia.
From Stdlib Require Import Numbers.DecimalString.
From Stdlib Require DecimalPos.
Import ListNotations.

Local Open Scope string_scope.
Local Open Scope Z_scope.

(** ** Exceptions and results *)

(** Which conversion raised a [ValueError] in [from_strings]. *)
Inductive conversion : Type :=
| ToInt      (* int(...)   *)
| ToFloat.   (* float(...) *)

(** One constructor per way [lambda_handler] can be left by an exception.
    The three [raise Exception(...)] sites of [parse_forecast_table] carry
    the value interpolated into their message. *)
Inductive exn : Type :=
| MissingCaptionError
    (* line 48: 'Failed to find table caption for parsing forecast date' *)
| DateFormatError (table_caption : string)
    (* line 53: 'Failed to parse forecast date. ... got: {table_caption}' *)
| TableShapeError (got : list string)
    (* line 60: 'Unexpected row headers. ... got :{transposed[0]}' *)
| FieldParseError (target : conversion) (literal : string)
    (* line 36: the ValueError of int(literal) or float(literal) *)
| IndexError
    (* line 59: transposed[0] on an empty list *)
| UnpackError (got : nat)
    (* line 64: a column that does not unpack into five names *)
| KeyError (key : string)
    (* lines 108, 116: LOCATIONS[location] for an unknown code *)
| FetchError (location : string).
    (* line 152: session.get raised *)

Inductive result (A : Type) : Type :=
| Ok (a : A)
| Raise (e : exn).

Arguments Ok {A} a.
Arguments Raise {A} e.

Definition bind {A B : Type} (r : result A) (k : A -> result B) : result B :=
  match r with
  | Ok a => k a
  | Raise e => Raise e
  end.

Notation "x <- r ;; k" := (bind r (fun x => k))
  (at level 61, r at next level, right associativity).
Notation "' p <- r ;; k" := (bind r (fun p => k))
  (at level 61, p pattern, r at next level, right associativity).

(** [[f(x) for x in xs]] where [f] may raise: the first exception wins. *)
Fixpoint mapM {A B : Type} (f : A -> result B) (xs : list A) : result (list B) :=
  match xs with
  | [] => Ok []
  | x :: xs' =>
      y <- f x ;;
      ys <- mapM f xs' ;;
      Ok (y :: ys)
  end.

(** A [for] loop threading an accumulator, whose body may raise. *)
Fixpoint foldM {A S : Type} (body : S -> A -> result S) (xs : list A) (s : S)
  : result S :=
  match xs with
  | [] => Ok s
  | x :: xs' => s' <- body s x ;; foldM body xs' s'
  end.

(** ** Text helpers *)

Definition is_digit (c : ascii) : bool :=
  let n := nat_of_ascii c in (48 <=? n)%nat && (n <=? 57)%nat.

Definition digit_value (c : ascii) : Z := Z.of_nat (nat_of_ascii c) - 48.

(** [Py_ISSPACE], the white space [int] and [float] skip at both ends of
    the ASCII text they parse: TAB..CR and the space. *)
Definition is_space (c : ascii) : bool :=
  let n := nat_of_ascii c in
  ((9 <=? n)%nat && (n <=? 13)%nat) || (n =? 32)%nat.

Fixpoint lstrip (s : string) : string :=
  match s with
  | String c r => if is_space c then lstrip r else s
  | EmptyString => EmptyString
  end.

Fixpoint rstrip (s : string) : string :=
  match s with
  | String c r =>
      match rstrip r with
      | EmptyString => if is_space c then EmptyString else String c EmptyString
      | r' => String c r'
      end
  | EmptyString => EmptyString
  end.

Definition strip (s : string) : string := rstrip (lstrip s).

Definition lower (c : ascii) : ascii :=
  let n := nat_of_ascii c in
  if (65 <=? n)%nat && (n <=? 90)%nat then ascii_of_nat (n + 32) else c.

Fixpoint lowercase (s : string) : string :=
  match s with
  | String c r => String (lower c) (lowercase r)
  | EmptyString => EmptyString
  end.

(** [sep.join(parts)] *)
Fixpoint join (sep : string) (parts : list string) : string :=
  match parts with
  | [] => ""
  | [p] => p
  | p :: ps => p ++ sep ++ join sep ps
  end.

(** [str(n)] for an integer, as an f-string renders it. *)
Definition str_of_int (n : Z) : string := NilZero.string_of_int (Z.to_int n).

(** [n] zeros before a text. *)
Fixpoint zeros (n : nat) (s : string) : string :=
  match n with
  | O => s
  | S n' => String "0" (zeros n' s)
  end.

(** [%02d] of a non-negative number, from its decimal text: zeros on the
    left up to the width. *)
Definition zfill (width : nat) (s : string) : string :=
  zeros (width - String.length s) s.

(** ** Characters beyond ASCII *)

(** The six low bits of a continuation byte of UTF-8. *)
Definition continuation (c : ascii) : option N :=
  let n := N_of_ascii c in
  if (128 <=? n)%N && (n <? 192)%N then Some (n - 128)%N else None.

(** The first character of a text: its code point, its bytes and the text
    after it.  [None] at the end of the text and on bytes that are not the
    UTF-8 encoding of a character (no [str] has such a text). *)
Definition next_char (s : string) : option (N * string * string) :=
  match s with
  | EmptyString => None
  | String b0 r0 =>
      let n0 := N_of_ascii b0 in
      if (n0 <? 128)%N then Some (n0, String b0 "", r0)
      else if (194 <=? n0)%N && (n0 <? 224)%N then
        match r0 with
        | String b1 r1 =>
            match continuation b1 with
            | Some n1 =>
                Some (((n0 - 192) * 64 + n1)%N, String b0 (String b1 ""), r1)
            | None => None
            end
        | EmptyString => None
        end
      else if (224 <=? n0)%N && (n0 <? 240)%N then
        match r0 with
        | String b1 (String b2 r2) =>
            match continuation b1, continuation b2 with
            | Some n1, Some n2 =>
                let cp := (((n0 - 224) * 64 + n1) * 64 + n2)%N in
                if (2048 <=? cp)%N && negb ((55296 <=? cp)%N && (cp <? 57344)%N)
                then Some (cp, String b0 (String b1 (String b2 "")), r2)
                else None
            | _, _ => None
            end
        | _ => None
        end
      else if (240 <=? n0)%N && (n0 <? 245)%N then
        match r0 with
        | String b1 (String b2 (String b3 r3)) =>
            match continuation b1, continuation b2, continuation b3 with
            | Some n1, Some n2, Some n3 =>
                let cp := ((((n0 - 240) * 64 + n1) * 64 + n2) * 64 + n3)%N in
                if (65536 <=? cp)%N && (cp <? 1114112)%N
                then Some (cp, String b0 (String b1 (String b2 (String b3 ""))), r3)
                else None
            | _, _, _ => None
            end
        | _ => None
        end
      else None
  end.

(** The code points of the digit zero of every script: the ten decimal
    digits of a script follow one another from its zero (Unicode 14.0, the
    character database of Python 3.11). *)
Definition DECIMAL_ZEROS : list N :=
  [ 48; 1632; 1776; 1984; 2406; 2534; 2662; 2790; 2918; 3046; 3174; 3302;
    3430; 3558; 3664; 3792; 3872; 4160; 4240; 6112; 6160; 6470; 6608; 6784;
    6800; 6992; 7088; 7232; 7248; 42528; 43216; 43264; 43472; 43504; 43600;
    44016; 65296; 66720; 68912; 69734; 69872; 69942; 70096; 70384; 70736;
    70864; 71248; 71360; 71472; 71904; 72016; 72784; 73040; 73120; 92768;
    92864; 93008; 120782; 120792; 120802; 120812; 120822; 123200; 123632;
    125264; 130032 ]%N.

(** [Py_UNICODE_TODECIMAL]: the value of a decimal digit of any script. *)
Definition decimal_value (cp : N) : option N :=
  match find (fun zero => (zero <=? cp)%N && (cp <? zero + 10)%N) DECIMAL_ZEROS with
  | Some zero => Some (cp - zero)%N
  | None => None
  end.

(** [Py_UNICODE_ISSPACE] beyond ASCII: NEL, the no-break space, the ogham
    space mark, the spaces U+2000..U+200A, the line and paragraph
    separators, the narrow no-break space, the medium mathematical space
    and the ideographic space. *)
Definition unicode_space (cp : N) : bool :=
  existsb (N.eqb cp) [133; 160; 5760; 8232; 8233; 8239; 8287; 12288]%N
  || ((8192 <=? cp)%N && (cp <=? 8202)%N).

Fixpoint is_ascii_text (s : string) : bool :=
  match s with
  | String c r => (N_of_ascii c <? 128)%N && is_ascii_text r
  | EmptyString => true
  end.

(** The loop of [_PyUnicode_TransformDecimalAndSpaceToASCII], a character
    a turn: a code point below 127 stays, a space becomes " ", a decimal
    digit its ASCII digit, and at any other character the text ends with
    "?".  A text of [n] bytes has at most [n] characters. *)
Fixpoint to_ascii_from (turns : nat) (s : string) : string :=
  match turns with
  | O => ""
  | S turns' =>
      match s with
      | EmptyString => ""
      | String _ _ =>
          match next_char s with
          | Some (cp, _, rest) =>
              if (cp <? 127)%N then String (ascii_of_N cp) (to_ascii_from turns' rest)
              else if unicode_space cp then String " " (to_ascii_from turns' rest)
              else
                match decimal_value cp with
                | Some v => String (ascii_of_N (48 + v)) (to_ascii_from turns' rest)
                | None => "?"
                end
          | None => "?"
          end
      end
  end.

(** What [int] and [float] do to a [str] before they parse it: an ASCII
    text is taken as it is, any other goes through the loop above. *)
Definition decimal_and_space_to_ascii (s : string) : string :=
  if is_ascii_text s then s else to_ascii_from (String.length s) s.

(** ** int() and float() *)

(** The rest of a digit part [digit (["_"] digit)*] once a digit has been
    read: the value so far, the number of digits, and what is left. *)
Fixpoint digitpart_tail (acc : Z) (n : nat) (s : string) : Z * nat * string :=
  match s with
  | String c r =>
      if is_digit c then digitpart_tail (10 * acc + digit_value c) (S n) r
      else if Ascii.eqb c "_" then
        match r with
        | String c' r' =>
            if is_digit c'
            then digitpart_tail (10 * acc + digit_value c') (S n) r'
            else (acc, n, s)
        | EmptyString => (acc, n, s)
        end
      else (acc, n, s)
  | EmptyString => (acc, n, s)
  end.

Definition digitpart (s : string) : option (Z * nat * string) :=
  match s with
  | String c r => if is_digit c then Some (digitpart_tail (digit_value c) 1 r) else None
  | EmptyString => None
  end.

(** An optional sign: [true] for "-". *)
Definition sign (s : string) : bool * string :=
  match s with
  | String c r =>
      if Ascii.eqb c "-" then (true, r)
      else if Ascii.eqb c "+" then (false, r)
      else (false, s)
  | EmptyString => (false, s)
  end.

(** [int(s)]: digits and spaces of other scripts brought to ASCII, white
    space stripped, an optional sign, one digit part and nothing else.
    [None] is the [ValueError].  (The limit of 4300 digits that Python 3.11
    puts on the conversion by default is not modelled.) *)
Definition int_of_str (s : string) : option Z :=
  let (neg, body) := sign (strip (decimal_and_space_to_ascii s)) in
  match digitpart body with
  | Some (v, _, EmptyString) => Some (if neg then - v else v)
  | _ => None
  end.

(** What [float(s)] reads: not-a-number, an infinity, or the decimal
    [(-1)^neg * mant * 10^exp10] that the text writes.  The float itself is
    this decimal rounded to binary64 (to an infinity when it is too large);
    the rounding is not modelled, so two values of this type may stand for
    the same float. *)
Inductive pyfloat : Type :=
| FNan
| FInf (neg : bool)
| FDec (neg : bool) (mant : Z) (exp10 : Z).

(** [number ::= [digitpart] "." digitpart | digitpart ["."]] *)
Definition float_number (s : string) : option (Z * Z * string) :=
  match digitpart s with
  | Some (i, _, rest) =>
      match rest with
      | String "." rest' =>
          match digitpart rest' with
          | Some (f, k, rest'') =>
              Some (i * 10 ^ Z.of_nat k + f, - Z.of_nat k, rest'')
          | None => Some (i, 0, rest')
          end
      | _ => Some (i, 0, rest)
      end
  | None =>
      match s with
      | String "." rest' =>
          match digitpart rest' with
          | Some (f, k, rest'') => Some (f, - Z.of_nat k, rest'')
          | None => None
          end
      | _ => None
      end
  end.

(** [exponent ::= ("e" | "E") [sign] digitpart], then the end of the text. *)
Definition float_exponent (s : string) : option Z :=
  match s with
  | EmptyString => Some 0
  | String c r =>
      if Ascii.eqb (lower c) "e" then
        let (neg, body) := sign r in
        match digitpart body with
        | Some (e, _, EmptyString) => Some (if neg then - e else e)
        | _ => None
        end
      else None
  end.

(** [float(s)]: digits and spaces of other scripts brought to ASCII, white
    space stripped, an optional sign, then "inf", "infinity", "nan" (any
    case) or a decimal number with an optional exponent.  [None] is the
    [ValueError]. *)
Definition float_of_str (s : string) : option pyfloat :=
  let (neg, body) := sign (strip (decimal_and_space_to_ascii s)) in
  let word := lowercase body in
  if String.eqb word "inf" || String.eqb word "infinity" then Some (FInf neg)
  else if String.eqb word "nan" then Some FNan
  else
    match float_number body with
    | Some (m, e, rest) =>
        match float_exponent rest with
        | Some x => Some (FDec neg m (e + x))
        | None => None
        end
    | None => None
    end.

(** [x >= 0] for a float, read on the decimal before rounding: exact for
    every decimal that binary64 does not round to zero. *)
Definition float_ge0 (x : pyfloat) : bool :=
  match x with
  | FNan => false
  | FInf neg => negb neg
  | FDec neg m _ => negb neg || (m =? 0)
  end.

(** ** Calendar dates ([datetime.date]) *)

Record date : Type := mkdate { year : Z; month : Z; day : Z }.

Definition date_eqb (a b : date) : bool :=
  (year a =? year b) && (month a =? month b) && (day a =? day b).

Definition is_leap (y : Z) : bool :=
  (y mod 4 =? 0) && (negb (y mod 100 =? 0) || (y mod 400 =? 0)).

Definition days_in_month (y m : Z) : Z :=
  if m =? 2 then (if is_leap y then 29 else 28)
  else if (m =? 4) || (m =? 6) || (m =? 9) || (m =? 11) then 30
  else 31.

(** The check of the [date(year, month, day)] constructor. *)
Definition valid_date (d : date) : bool :=
  (1 <=? year d) && (year d <=? 9999) &&
  (1 <=? month d) && (month d <=? 12) &&
  (1 <=? day d) && (day d <=? days_in_month (year d) (month d)).

Definition days_before_year (y : Z) : Z :=
  let y1 := y - 1 in y1 * 365 + y1 / 4 - y1 / 100 + y1 / 400.

Fixpoint days_before_month_aux (y : Z) (m : nat) : Z :=
  match m with
  | O => 0
  | S m' => days_before_month_aux y m' + days_in_month y (Z.of_nat m)
  end.

Definition days_before_month (y m : Z) : Z :=
  days_before_month_aux y (Z.to_nat (m - 1)).

Definition toordinal (d : date) : Z :=
  days_before_year (year d) + days_before_month (year d) (month d) + day d.

(** [date.weekday()]: Monday is 0. *)
Definition weekday (d : date) : Z := (toordinal d + 6) mod 7.

(** [%a] in the C locale. *)
Definition abbreviated_day (d : date) : string :=
  nth (Z.to_nat (weekday d)) ["Mon"; "Tue"; "Wed"; "Thu"; "Fri"; "Sat"; "Sun"] "".

(** [d.strftime("%d/%m")] *)
Definition strftime_dm (d : date) : string :=
  zfill 2 (str_of_int (day d)) ++ "/" ++ zfill 2 (str_of_int (month d)).

(** [d.strftime("%Y-%m-%d (%a)")].  [%Y] is written as the C library of
    Linux writes it, without zeros on the left below the year 1000. *)
Definition strftime_Ymda (d : date) : string :=
  str_of_int (year d) ++ "-" ++ zfill 2 (str_of_int (month d)) ++ "-"
    ++ zfill 2 (str_of_int (day d)) ++ " (" ++ abbreviated_day d ++ ")".

(** ** The caption: [re.match] and [datetime.strptime] *)

(** A matcher reads a piece at the head of a text: the piece and the text
    after it. *)
Definition matcher : Type := string -> option (string * string).

(** [\d]: one decimal digit of any script. *)
Definition decimal_char : matcher :=
  fun s =>
    match next_char s with
    | Some (cp, char, rest) =>
        match decimal_value cp with
        | Some _ => Some (char, rest)
        | None => None
        end
    | None => None
    end.

(** [\d{n}]: exactly [n] decimal digits at the head of [s]. *)
Fixpoint take_digits (n : nat) (s : string) : option (string * string) :=
  match n with
  | O => Some ("", s)
  | S n' =>
      match decimal_char s with
      | Some (char, r) =>
          match take_digits n' r with
          | Some (ds, rest) => Some (char ++ ds, rest)
          | None => None
          end
      | None => None
      end
  end.

(** A literal at the head of [s]. *)
Fixpoint expect (lit s : string) : option string :=
  match lit, s with
  | EmptyString, _ => Some s
  | String a lit', String b s' => if Ascii.eqb a b then expect lit' s' else None
  | String _ _, EmptyString => None
  end.

(** The first alternative, in order, whose continuation succeeds: the
    backtracking of the regular-expression engine. *)
Fixpoint first_match {A B : Type} (k : A -> option B) (alts : list (option A))
  : option B :=
  match alts with
  | [] => None
  | None :: alts' => first_match k alts'
  | Some a :: alts' =>
      match k a with
      | Some b => Some b
      | None => first_match k alts'
      end
  end.

(** [\d{1,2}], greedy: two digits are tried before one. *)
Definition digits_1_2 (s : string) : list (option (string * string)) :=
  [take_digits 2 s; take_digits 1 s].

(** [re.match('Forecast Date: (\d{4}-\d{1,2}-\d{1,2})', caption)]: the text
    of group 1, or [None] when the pattern does not match at the start of
    the caption.  Text after the match is ignored, as [re.match] does. *)
Definition re_match_forecast_date (table_caption : string) : option string :=
  match expect "Forecast Date: " table_caption with
  | Some s1 =>
      match take_digits 4 s1 with
      | Some (y, s2) =>
          match expect "-" s2 with
          | Some s3 =>
              first_match
                (fun '(m, s4) =>
                   match expect "-" s4 with
                   | Some s5 =>
                       first_match
                         (fun '(d, _) => Some (y ++ "-" ++ m ++ "-" ++ d))
                         (digits_1_2 s5)
                   | None => None
                   end)
                (digits_1_2 s3)
          | None => None
          end
      | None => None
      end
  | None => None
  end.

Definition between (lo hi : string) (c : ascii) : bool :=
  match lo, hi with
  | String l _, String h _ =>
      (nat_of_ascii l <=? nat_of_ascii c)%nat && (nat_of_ascii c <=? nat_of_ascii h)%nat
  | _, _ => false
  end.

(** A class [[lo-hi]] of ASCII characters. *)
Definition class (lo hi : string) : matcher :=
  fun s =>
    match s with
    | String c r => if between lo hi c then Some (String c "", r) else None
    | EmptyString => None
    end.

(** One matcher after another. *)
Definition followed_by (m1 m2 : matcher) : matcher :=
  fun s =>
    match m1 s with
    | Some (a, r) =>
        match m2 r with
        | Some (b, r') => Some (a ++ b, r')
        | None => None
        end
    | None => None
    end.

(** [%m]: [1[0-2]|0[1-9]|[1-9]] *)
Definition directive_m (s : string) : list (option (string * string)) :=
  [ followed_by (class "1" "1") (class "0" "2") s;
    followed_by (class "0" "0") (class "1" "9") s;
    class "1" "9" s ].

(** [%d]: [3[0-1]|[1-2]\d|0[1-9]|[1-9]| [1-9]] *)
Definition directive_d (s : string) : list (option (string * string)) :=
  [ followed_by (class "3" "3") (class "0" "1") s;
    followed_by (class "1" "2") decimal_char s;
    followed_by (class "0" "0") (class "1" "9") s;
    class "1" "9" s;
    followed_by (class " " " ") (class "1" "9") s ].

(** [datetime.strptime(text, '%Y-%m-%d').date()]: the pattern of the format
    ([%Y] is [\d\d\d\d]) is matched at the start of the text, data left
    over is an error, the three pieces are read by [int], and a day the
    month does not have or the year 0 is an error.  [None] is the
    [ValueError]. *)
Definition strptime_Ymd (text : string) : option date :=
  match take_digits 4 text with
  | Some (y, s1) =>
      match expect "-" s1 with
      | Some s2 =>
          match
            first_match
              (fun '(m, s3) =>
                 match expect "-" s3 with
                 | Some s4 =>
                     first_match (fun '(d, rest) => Some (m, d, rest))
                       (directive_d s4)
                 | None => None
                 end)
              (directive_m s2)
          with
          | Some (m, d, EmptyString) =>
              match int_of_str y, int_of_str m, int_of_str d with
              | Some year, Some month, Some day =>
                  let dt := mkdate year month day in
                  if valid_date dt then Some dt else None
              | _, _, _ => None
              end
          | _ => None
          end
      | None => None
      end
  | None => None
  end.

(** ** The forecast record and the table parser *)

Record ThreeHourForecast : Type := mkForecast {
  hour : Z;
  temperature : pyfloat;
  wind_speed : Z;
  wind_direction : string;
  rain_fall : pyfloat
}.

Definition HOUR_RANGE : Z * Z := (9, 16).
Definition MIN_WIND_SPEED : Z := 20.

Definition EXPECTED_DIMENSIONS : list string :=
  ["Time (Hour)"; "Temperature (oC)"; "Wind Speed (km/h)"; "Wind Direction";
   "3-Hourly Rainfall (mm)"].

Definition py_int (s : string) : result Z :=
  match int_of_str s with
  | Some n => Ok n
  | None => Raise (FieldParseError ToInt s)
  end.

Definition py_float (s : string) : result pyfloat :=
  match float_of_str s with
  | Some x => Ok x
  | None => Raise (FieldParseError ToFloat s)
  end.

(** The arguments of [cls(...)] are evaluated from left to right. *)
Definition from_strings
  (hour_str temperature_str wind_speed_str wind_direction_str rainfall_str : string)
  : result ThreeHourForecast :=
  h <- py_int hour_str ;;
  t <- py_float temperature_str ;;
  w <- py_int wind_speed_str ;;
  r <- py_float rainfall_str ;;
  Ok (mkForecast h t w wind_direction_str r).

(** A [table] element as the parser reads it: the text of its first
    [caption], if it has one, and the cell texts of each [tr]. *)
Record Element : Type := mkElement {
  caption : option string;
  tr : list (list string)
}.

(** [zip_with f xs ys] stops at the shorter list. *)
Fixpoint zip_with {A B C : Type} (f : A -> B -> C) (xs : list A) (ys : list B)
  : list C :=
  match xs, ys with
  | x :: xs', y :: ys' => f x y :: zip_with f xs' ys'
  | _, _ => []
  end.

(** The transposition [list(zip( *rows))]: the i-th tuple holds the i-th cell of every row, as
    long as every row has one; no row gives no tuple. *)
Fixpoint zip_star (rows : list (list string)) : list (list string) :=
  match rows with
  | [] => []
  | [row] => map (fun cell => [cell]) row
  | row :: rest => zip_with cons row (zip_star rest)
  end.

(** Tuple equality, [==] on tuples of [str]. *)
Fixpoint tuple_eqb (xs ys : list string) : bool :=
  match xs, ys with
  | [], [] => true
  | x :: xs', y :: ys' => String.eqb x y && tuple_eqb xs' ys'
  | _, _ => false
  end.

(** Lines 45-53: the caption and the forecast date. *)
Definition forecast_date_of (table : Element) : result date :=
  table_caption <-
    match caption table with
    | Some text => Ok text
    | None => Raise MissingCaptionError
    end ;;
  match re_match_forecast_date table_caption with
  | Some group1 =>
      match strptime_Ymd group1 with
      | Some forecast_date => Ok forecast_date
      | None => Raise (DateFormatError table_caption)
      end
  | None => Raise (DateFormatError table_caption)
  end.

(** The target list of the loop of line 64 and its body. *)
Definition unpack_forecast (column : list string) : result ThreeHourForecast :=
  match column with
  | [hour; temperature; wind_speed; wind_direction; rainfall] =>
      from_strings hour temperature wind_speed wind_direction rainfall
  | _ => Raise (UnpackError (List.length column))
  end.

Definition parse_forecast_table (table : Element)
  : result (date * list ThreeHourForecast) :=
  forecast_date <- forecast_date_of table ;;
  let rows := tr table in
  let transposed := zip_star rows in
  match transposed with
  | [] => Raise IndexError
  | header :: columns =>
      if negb (tuple_eqb header EXPECTED_DIMENSIONS)
      then Raise (TableShapeError header)
      else
        day_forecast <- mapM unpack_forecast columns ;;
        Ok (forecast_date, day_forecast)
  end.

(** ** The classifier *)

Definition is_strong (self : ThreeHourForecast) : bool :=
  let '(start_hour, end_hour) := HOUR_RANGE in
  (MIN_WIND_SPEED <=? wind_speed self)
  && ((start_hour <=? hour self) && (hour self <=? end_hour)).

Definition summary (self : ThreeHourForecast) : string :=
  str_of_int (hour self) ++ ":00 - " ++ str_of_int (wind_speed self) ++ " km/h".

(** ** Dictionaries in insertion order *)

Section Dict.
Context {K V : Type} (eqb : K -> K -> bool).

Definition dict : Type := list (K * V).

Fixpoint dict_get (d : dict) (k : K) : option V :=
  match d with
  | [] => None
  | (k', v) :: d' => if eqb k k' then Some v else dict_get d' k
  end.

(** [d[k] = v]: a key already present keeps its place, a new key goes
    last. *)
Fixpoint dict_set (d : dict) (k : K) (v : V) : dict :=
  match d with
  | [] => [(k, v)]
  | (k', v') :: d' =>
      if eqb k k' then (k', v) :: d' else (k', v') :: dict_set d' k v
  end.

Definition keys (d : dict) : list K := map fst d.
End Dict.

Definition finding : Type := date * string * list ThreeHourForecast.
Definition locations_dict : Type := list (string * list ThreeHourForecast).
Definition aggregate : Type := list (date * locations_dict).

(** One turn of the loop of [group_by_date_location].  [setdefault] hands
    back the dictionary stored under [forecast_date] itself (a fresh empty
    one is stored first when the date is new), so the assignment to
    [date_data[location]] is a write into that slot of [results]. *)
Definition group_step (results : aggregate) (f : finding) : aggregate :=
  let '(forecast_date, location, forecasts) := f in
  let date_data :=
    match dict_get date_eqb results forecast_date with
    | Some stored => stored
    | None => []
    end in
  dict_set date_eqb results forecast_date
    (dict_set String.eqb date_data location forecasts).

Definition group_by_date_location (date_locations : list finding) : aggregate :=
  fold_left group_step date_locations [].

(** ** The alert text *)

Definition LOCATIONS : list (string * string) :=
  [("TMTWSC", "Tai Mei Tuk"); ("S", "Stanley"); ("TM", "Tap Mun")].

(** [LOCATIONS[location]] *)
Definition LOCATIONS_getitem (location : string) : result string :=
  match dict_get String.eqb LOCATIONS location with
  | Some name => Ok name
  | None => Raise (KeyError location)
  end.

Definition NL : string := String "010"%char "".
Definition TAB : string := String "009"%char "".

(** Lines 108-109: one entry of [date_summary]. *)
Definition date_summary_entry (item : date * locations_dict) : result string :=
  let '(forecast_date, locations) := item in
  names <- mapM (fun '(location, _) => LOCATIONS_getitem location) locations ;;
  Ok (strftime_dm forecast_date ++ " @" ++ join ", " names).

(** Lines 116-118: what one location adds to [message_body]. *)
Definition body_location (message_body : string)
  (item : string * list ThreeHourForecast) : result string :=
  let '(location, forecasts) := item in
  name <- LOCATIONS_getitem location ;;
  let message_body := message_body ++ name ++ NL in
  let message_body :=
    message_body ++ join NL (map (fun forecast => TAB ++ summary forecast) forecasts) in
  Ok (message_body ++ NL).

(** Lines 114-118: what one date adds to [message_body]. *)
Definition body_date (message_body : string) (item : date * locations_dict)
  : result string :=
  let '(forecast_date, locations) := item in
  let message_body := message_body ++ strftime_Ymda forecast_date ++ NL in
  foldM body_location locations message_body.

Definition generate_alert (date_locations : list finding) : result (string * string) :=
  let date_location_groups := group_by_date_location date_locations in
  date_summary <- mapM date_summary_entry date_location_groups ;;
  let message_subject := "Strong wind forecasted: " ++ join "; " date_summary in
  message_body <- foldM body_date date_location_groups "" ;;
  Ok (message_subject, message_body).

(** ** The handler *)

(** What [session.get(DATA_URL, params={'stn': location})] followed by
    [r.html.find('table')] gives for each location code: the tables of the
    page, or the exception of the request. *)
Definition forecast_source : Type := string -> result (list Element).

(** What [client.publish(TopicArn, Subject, Message)] answers: it returns,
    or it raises. *)
Definition notifier : Type := string -> string -> result unit.

(** The calls a run makes to its two collaborators.  Log lines are not
    recorded. *)
Inductive event : Type :=
| Requested (location : string)
    (* line 152: session.get(DATA_URL, params={'stn': location}) *)
| Alerted (message_subject message_body : string).
    (* line 167: send_alert(message_subject, message_body) *)

(** A computation that leaves a trace of calls and returns or raises; the
    calls made before an exception stay made. *)
Definition traced (A : Type) : Type := list event * result A.

Definition ret {A : Type} (a : A) : traced A := ([], Ok a).

Definition lift {A : Type} (r : result A) : traced A := ([], r).

Definition and_then {A B : Type} (m : traced A) (k : A -> traced B) : traced B :=
  match m with
  | (calls, Ok a) => let (calls', r) := k a in ((calls ++ calls')%list, r)
  | (calls, Raise e) => (calls, Raise e)
  end.

(** A [for] loop whose body makes calls. *)
Fixpoint for_each {A S : Type} (body : S -> A -> traced S) (xs : list A) (s : S)
  : traced S :=
  match xs with
  | [] => ret s
  | x :: xs' => and_then (body s x) (for_each body xs')
  end.

Definition session_get (get : forecast_source) (location : string)
  : traced (list Element) :=
  ([Requested location], get location).

Definition send_alert (publish : notifier) (message_subject message_body : string)
  : traced unit :=
  ([Alerted message_subject message_body], publish message_subject message_body).

(** Lines 156-161, for one table of one location. *)
Definition check_table (location : string) (strong_wind_date_locations : list finding)
  (table : Element) : result (list finding) :=
  ' (forecast_date, forecasts) <- parse_forecast_table table ;;
  let strong_wind_hours := filter is_strong forecasts in
  match strong_wind_hours with
  | [] => Ok strong_wind_date_locations
  | _ :: _ =>
      Ok (strong_wind_date_locations
            ++ [(forecast_date, location, strong_wind_hours)])%list
  end.

(** Lines 151-161, for one location: the first table of the page is
    skipped. *)
Definition check_location (get : forecast_source)
  (strong_wind_date_locations : list finding) (location : string)
  : traced (list finding) :=
  and_then (session_get get location) (fun tables =>
  lift (foldM (check_table location) (tl tables) strong_wind_date_locations)).

Definition lambda_handler (get : forecast_source) (publish : notifier) : traced unit :=
  and_then (for_each (check_location get) (keys LOCATIONS) [])
    (fun strong_wind_date_locations =>
       match strong_wind_date_locations with
       | [] => ret tt
       | _ :: _ =>
           and_then (lift (generate_alert strong_wind_date_locations))
             (fun '(message_subject, message_body) =>
                send_alert publish message_subject message_body)
       end).

(** The calls of the notifier in a run, the locations requested, and how
    the run ended. *)
Definition sent {A : Type} (r : traced A) : list (string * string) :=
  flat_map
    (fun call => match call with Alerted s b => [(s, b)] | Requested _ => [] end)
    (fst r).

Definition requested {A : Type} (r : traced A) : list string :=
  flat_map
    (fun call => match call with Requested l => [l] | Alerted _ _ => [] end)
    (fst r).

Definition outcome {A : Type} (r : traced A) : result A := snd r.

(** ** The specification's side of the comparisons *)

(** The header sequence as the specification prints it, its second entry
    written with the degree sign. *)
Definition SPEC_DIMENSIONS : list string :=
  ["Time (Hour)"; "Temperature (°C)"; "Wind Speed (km/h)"; "Wind Direction";
   "3-Hourly Rainfall (mm)"].

(** The data-model ranges of the specification for one record. *)
Definition in_data_model_ranges (r : ThreeHourForecast) : Prop :=
  0 <= hour r <= 23 /\ 0 <= wind_speed r /\ float_ge0 (rain_fall r) = true.

(** A conversion that fails on a text. *)
Definition conversion_fails (target : conversion) (literal : string) : Prop :=
  match target with
  | ToInt => int_of_str literal = None
  | ToFloat => float_of_str literal = None
  end.

(** The records stored for a (date, location) pair of an aggregate. *)
Definition aggregate_get (agg : aggregate) (d : date) (location : string)
  : option (list ThreeHourForecast) :=
  match dict_get date_eqb agg d with
  | Some locations => dict_get String.eqb locations location
  | None => None
  end.

(** No date and, under a date, no location is a key twice. *)
Definition well_keyed (agg : aggregate) : Prop :=
  NoDup (keys agg) /\ Forall (fun item => NoDup (keys (snd item))) agg.

(** The records of the last finding of the input with a given pair. *)
Fixpoint last_finding (date_locations : list finding) (d : date) (location : string)
  : option (list ThreeHourForecast) :=
  match date_locations with
  | [] => None
  | (d', location', forecasts) :: rest =>
      match last_finding rest d location with
      | Some later => Some later
      | None =>
          if date_eqb d d' && String.eqb location location'
          then Some forecasts else None
      end
  end.

(** The display name of a location code of the registry. *)
Definition display_name (location : string) : string :=
  match dict_get String.eqb LOCATIONS location with
  | Some name => name
  | None => ""
  end.

Definition known_location (location : string) : Prop :=
  In location (keys LOCATIONS).

Fixpoint concat_text (parts : list string) : string :=
  match parts with
  | [] => ""
  | p :: ps => p ++ concat_text ps
  end.

(** The subject as the specification words it: per-date segments
    [DD/MM @Name1, Name2, ...] joined by "; ". *)
Definition spec_segment (item : date * locations_dict) : string :=
  strftime_dm (fst item) ++ " @" ++ join ", " (map display_name (keys (snd item))).

Definition spec_subject (agg : aggregate) : string :=
  "Strong wind forecasted: " ++ join "; " (map spec_segment agg).

(** The body as the specification words it: every line is a text followed
    by a newline; a date line, then for each location its name line and one
    line per record. *)
Definition spec_record_line (r : ThreeHourForecast) : string :=
  TAB ++ str_of_int (hour r) ++ ":00 - " ++ str_of_int (wind_speed r) ++ " km/h" ++ NL.

Definition spec_location_block (item : string * list ThreeHourForecast) : string :=
  display_name (fst item) ++ NL ++ concat_text (map spec_record_line (snd item)).

Definition spec_date_block (item : date * locations_dict) : string :=
  strftime_Ymda (fst item) ++ NL ++ concat_text (map spec_location_block (snd item)).

Definition spec_body (agg : aggregate) : string :=
  concat_text (map spec_date_block agg).

(** A finding as the handler feeds it to the formatter: a registry code and
    at least one record. *)
Definition well_formed_finding (f : finding) : Prop :=
  let '(_, location, forecasts) := f in
  known_location location /\ forecasts <> [].

(** An aggregate as grouping well-formed findings leaves it. *)
Definition well_formed_aggregate (agg : aggregate) : Prop :=
  Forall
    (fun item : date * locations_dict =>
       Forall (fun entry => known_location (fst entry) /\ snd entry <> []) (snd item))
    agg.



Definition date_of (f : finding) : date := fst (fst f).
Definition location_of (f : finding) : string := snd (fst f).

(** A flagged finding of a run: a table after the first of a location's
    page parses to the date and has these strong records, at least one. *)
Definition flagged (get : forecast_source) (f : finding) : Prop :=
  let '(forecast_date, location, strong_wind_hours) := f in
  known_location location /\
  exists tables table forecasts,
    get location = Ok tables /\
    In table (tl tables) /\
    parse_forecast_table table = Ok (forecast_date, forecasts) /\
    strong_wind_hours = filter is_strong forecasts /\
    strong_wind_hours <> [].

(** What a table that parses adds to the findings of its location. *)
Definition table_findings (location : string) (table : Element) : list finding :=
  match parse_forecast_table table with
  | Ok (forecast_date, forecasts) =>
      match filter is_strong forecasts with
      | [] => []
      | strong_wind_hours => [(forecast_date, location, strong_wind_hours)]
      end
  | Raise _ => []
  end.

(** The findings of a location's page, in the order of its tables. *)
Definition location_findings (get : forecast_source) (location : string)
  : list finding :=
  match get location with
  | Ok tables => flat_map (table_findings location) (tl tables)
  | Raise _ => []
  end.

(** The findings of all locations, in registry order. *)
Definition all_findings (get : forecast_source) : list finding :=
  flat_map (location_findings get) (keys LOCATIONS).

(** Every location is fetched and every table after the first parses. *)
Definition all_tables_parse (get : forecast_source) : Prop :=
  forall location, known_location location ->
    exists tables, get location = Ok tables /\
      forall table, In table (tl tables) ->
        exists parsed, parse_forecast_table table = Ok parsed.

(** The page of a location fails: its request raises, or one of its tables
    after the first does not parse. *)
Definition page_fails (get : forecast_source) (location : string) : Prop :=
  (exists e, get location = Raise e) \/
  (exists tables table e,
     get location = Ok tables /\ In table (tl tables) /\
     parse_forecast_table table = Raise e).

(** A location of the registry fails. *)
Definition location_fails (get : forecast_source) (location : string) : Prop :=
  known_location location /\ page_fails get location.

(** What the visit of one location returns, its request set aside. *)
Definition location_result (get : forecast_source)
  (strong_wind_date_locations : list finding) (location : string)
  : result (list finding) :=
  tables <- get location ;;
  foldM (check_table location) (tl tables) strong_wind_date_locations.

(** The calls of [send_alert] as events. *)
Definition alerted (alerts : list (string * string)) : list event :=
  map (fun alert => Alerted (fst alert) (snd alert)) alerts.

(** The relation between a column after the header and the record made of
    it: the four conversions of [from_strings], the direction kept as it
    is. *)
Definition converted (column : list string) (r : ThreeHourForecast) : Prop :=
  exists h t w wd rf,
    column = [h; t; w; wd; rf] /\
    int_of_str h = Some (hour r) /\
    float_of_str t = Some (temperature r) /\
    int_of_str w = Some (wind_speed r) /\
    wind_direction r = wd /\
    float_of_str rf = Some (rain_fall r).

(** ** Tables and pages used as concrete inputs *)

Definition table_of (table_caption : option string) (temperature_header : string)
  (hours temperatures speeds directions rainfalls : list string) : Element :=
  mkElement table_caption
    [ "Time (Hour)" :: hours;
      temperature_header :: temperatures;
      "Wind Speed (km/h)" :: speeds;
      "Wind Direction" :: directions;
      "3-Hourly Rainfall (mm)" :: rainfalls ].

(** Hours 8, 9 and 17 of 2024-03-05 with 15, 25 and 30 km/h. *)
Definition stanley_table : Element :=
  table_of (Some "Forecast Date: 2024-3-5") "Temperature (oC)"
    ["8"; "9"; "17"] ["20"; "21.5"; "19"] ["15"; "25"; "30"]
    ["E"; "E"; "NE"] ["0"; "0.5"; "0"].

(** The same table under the header the specification prints. *)
Definition degree_sign_table : Element :=
  table_of (Some "Forecast Date: 2024-3-5") "Temperature (°C)"
    ["8"; "9"; "17"] ["20"; "21.5"; "19"] ["15"; "25"; "30"]
    ["E"; "E"; "NE"] ["0"; "0.5"; "0"].

(** A table whose only hour lies outside every range of the data model. *)
Definition out_of_range_table : Element :=
  table_of (Some "Forecast Date: 2024-3-5") "Temperature (oC)"
    ["25"] ["-300"] ["-3"] ["E"] ["-1.5"].

(** A wind speed that is not an integer in the second hour. *)
Definition bad_speed_table : Element :=
  table_of (Some "Forecast Date: 2024-3-5") "Temperature (oC)"
    ["9"; "10"] ["20"; "21"] ["25"; "gale"] ["E"; "E"] ["0"; "0"].

(** A calm day. *)
Definition calm_table : Element :=
  table_of (Some "Forecast Date: 2024-3-6") "Temperature (oC)"
    ["9"; "12"] ["20"; "21"] ["5"; "19"] ["E"; "E"] ["0"; "0"].

Definition no_caption_table : Element :=
  table_of None "Temperature (oC)" ["9"] ["20"] ["25"] ["E"] ["0"].

Definition legend : Element := mkElement None [["Legend"]].


(** A page is the legend followed by the forecast tables. *)
Definition page (tables : list Element) : result (list Element) :=
  Ok (legend :: tables).

(** Strong wind at Tai Mei Tuk, then the request for Stanley fails. *)
Definition source_with_failed_request : forecast_source :=
  fun location =>
    if String.eqb location "TMTWSC" then page [stanley_table]
    else if String.eqb location "S" then Raise (FetchError "S")
    else page [calm_table].

(** Strong wind at Tai Mei Tuk and at Tap Mun; between them, Stanley's
    table has no caption. *)
Definition source_with_broken_table : forecast_source :=
  fun location =>
    if String.eqb location "S" then page [no_caption_table]
    else page [calm_table; stanley_table].

(** Every table parses; strong wind at Stanley only. *)
Definition windy_source : forecast_source :=
  fun location =>
    if String.eqb location "S" then page [stanley_table; calm_table]
    else page [calm_table].

(** Every table parses and none has a strong hour. *)
Definition calm_source : forecast_source :=
  fun _ => page [calm_table].

(** A notifier that delivers. *)
Definition delivering : notifier := fun _ _ => Ok tt.

(** ** Further definitions for the properties of the whole module *)

(** The number of cells of the shortest row, 0 without rows: how many
    tuples the transposition has. *)
Fixpoint shortest (rows : list (list string)) : nat :=
  match rows with
  | [] => O
  | [row] => List.length row
  | row :: rest => Nat.min (List.length row) (shortest rest)
  end.

(** A table with every row cut after its first [n] cells. *)
Definition cut_rows (n : nat) (table : Element) : Element :=
  mkElement (caption table) (map (firstn n) (tr table)).

(** The (date, location, records) entries of an aggregate, in the order of
    its items. *)
Definition entries (agg : aggregate) : list finding :=
  flat_map
    (fun item : date * locations_dict =>
       map (fun entry => (fst item, fst entry, snd entry)) (snd item))
    agg.

Definition records_of (f : finding) : list ThreeHourForecast := snd f.

(** The table of Stanley with a sixth cell, not a number, in the row of
    the wind speeds only. *)
Definition ragged_table : Element :=
  mkElement (Some "Forecast Date: 2024-3-5")
    [ ["Time (Hour)"; "8"; "9"; "17"];
      ["Temperature (oC)"; "20"; "21.5"; "19"];
      ["Wind Speed (km/h)"; "15"; "25"; "30"; "n/a"];
      ["Wind Direction"; "E"; "E"; "NE"];
      ["3-Hourly Rainfall (mm)"; "0"; "0.5"; "0"] ].

(** A row without cells among the five. *)
Definition table_with_empty_row : Element :=
  mkElement (Some "Forecast Date: 2024-3-5")
    [ ["Time (Hour)"; "9"]; []; ["Wind Speed (km/h)"; "25"];
      ["Wind Direction"; "E"]; ["3-Hourly Rainfall (mm)"; "0"] ].


(** Two answers of the forecast source that differ at most in the first
    table of the page. *)
Definition same_after_first (r r' : result (list Element)) : Prop :=
  match r, r' with
  | Ok tables, Ok tables' => tl tables = tl tables'
  | Raise e, Raise e' => e = e'
  | _, _ => False
  end.

(** The pages of [windy_source] with, in place of the legend, a table of
    strong wind at Stanley and a table without caption elsewhere. *)
Definition windy_source_other_first_tables : forecast_source :=
  fun location =>
    if String.eqb location "S" then Ok [stanley_table; stanley_table; calm_table]
    else Ok [no_caption_table; calm_table].

(** A finding under a code that is not in the registry. *)
Definition findings_with_unknown_code : list finding :=
  [ (mkdate 2024 3 5, "S", [mkForecast 9 (FDec false 215 (-1)) 25 "E" (FDec false 5 (-1))]);
    (mkdate 2024 3 5, "KP", [mkForecast 10 (FDec false 22 0) 31 "E" (FDec false 0 0)]) ].

(** A notifier whose transport fails. *)
Definition failing_notifier : notifier := fun _ _ => Raise (FetchError "sns").

(** Every character of a text passes a test. *)
Fixpoint all_chars (p : ascii -> bool) (s : string) : bool :=
  match s with
  | String c r => p c && all_chars p r
  | EmptyString => true
  end.

(** A digit or the minus sign: the characters [str] of an integer uses. *)
Definition sign_or_digit (c : ascii) : bool := is_digit c || Ascii.eqb c "-".

(** One step of reading the digits that [Pos.to_uint] wrote: the digit is
    recognised and the value read so far is the accumulator of
    [Pos.of_uint_acc]. *)
Ltac read_digit IH :=
  lazymatch goal with
  | |- context [is_digit ?c] =>
      change (is_digit c) with true;
      let v := eval compute in (digit_value c) in
      change (digit_value c) with v;
      cbv iota;
      lazymatch goal with
      | |- context [Pos.of_uint_acc _ ?q] =>
          lazymatch goal with
          | |- context [digitpart_tail ?acc _ _] =>
              replace acc with (Z.pos q) by lia
          end
      end;
      apply IH
  end.

(** The five arguments of [from_strings], in order. *)
Inductive field : Type :=
| Hour
| Temperature
| WindSpeed
| WindDirection
| Rainfall.

(** The field of a column of five cells whose conversion raises: the first
    of hour, temperature, wind speed and rainfall, in the order in which
    the arguments of [cls(...)] are evaluated, that does not convert. *)
Definition offending_field (column : list string) : option field :=
  match column with
  | [h; t; w; _; rf] =>
      match int_of_str h with
      | None => Some Hour
      | Some _ =>
          match float_of_str t with
          | None => Some Temperature
          | Some _ =>
              match int_of_str w with
              | None => Some WindSpeed
              | Some _ =>
                  match float_of_str rf with
                  | None => Some Rainfall
                  | Some _ => None
                  end
              end
          end
      end
  | _ => None
  end.

(** One hour whose hour cell is "x", and one whose wind speed is "x". *)
Definition bad_hour_x_table : Element :=
  table_of (Some "Forecast Date: 2024-3-5") "Temperature (oC)"
    ["x"] ["20"] ["25"] ["E"] ["0"].

Definition bad_speed_x_table : Element :=
  table_of (Some "Forecast Date: 2024-3-5") "Temperature (oC)"
    ["9"] ["20"] ["x"] ["E"] ["0"].

(** What the loop of [lambda_handler] says of one finding it returns. *)
Definition found_in_a_table (get : forecast_source) (f : finding) : Prop :=
  known_location (location_of f) /\
  records_of f <> [] /\
  Forall (fun r => is_strong r = true /\ 20 <= wind_speed r /\ 9 <= hour r <= 16)
    (records_of f) /\
  exists tables table forecasts,
    get (location_of f) = Ok tables /\
    In table (tl tables) /\
    parse_forecast_table table = Ok (date_of f, forecasts) /\
    records_of f = filter is_strong forecasts.

(** * Properties *)

(** ** Sanity checks of the library models *)

Example int_of_str_examples :
  int_of_str "9" = Some 9 /\ int_of_str " -12 " = Some (-12) /\
  int_of_str "1_000" = Some 1000 /\ int_of_str "" = None /\
  int_of_str "1__0" = None /\ int_of_str "12.5" = None /\
  int_of_str "+" = None /\ int_of_str "1_" = None.
Proof. repeat split; reflexivity. Qed.

Example float_of_str_examples :
  float_of_str "21.5" = Some (FDec false 215 (-1)) /\
  float_of_str "-1.5" = Some (FDec true 15 (-1)) /\
  float_of_str ".5e3" = Some (FDec false 5 2) /\
  float_of_str "7." = Some (FDec false 7 0) /\
  float_of_str "Inf" = Some (FInf false) /\
  float_of_str "." = None /\ float_of_str "1e" = None /\
  float_of_str "" = None /\ float_of_str "NE" = None.
Proof. repeat split; reflexivity. Qed.

Example strftime_examples :
  strftime_dm (mkdate 2024 3 5) = "05/03" /\
  strftime_Ymda (mkdate 2024 3 5) = "2024-03-05 (Tue)" /\
  strftime_Ymda (mkdate 2026 11 4) = "2026-11-04 (Wed)" /\
  strftime_Ymda (mkdate 2000 2 29) = "2000-02-29 (Tue)".
Proof. repeat split; reflexivity. Qed.

Example re_match_examples :
  re_match_forecast_date "Forecast Date: 2024-3-5" = Some "2024-3-5" /\
  re_match_forecast_date "Forecast Date: 2024-10-123 (Sat)" = Some "2024-10-12" /\
  re_match_forecast_date "Forecast Date: 2024/03/05" = None /\
  re_match_forecast_date "Forecast Date: 2024-031-5" = None /\
  re_match_forecast_date " Forecast Date: 2024-3-5" = None.
Proof. repeat split; reflexivity. Qed.

Example strptime_examples :
  strptime_Ymd "2024-3-5" = Some (mkdate 2024 3 5) /\
  strptime_Ymd "2024-12-31" = Some (mkdate 2024 12 31) /\
  strptime_Ymd "2024-02-29" = Some (mkdate 2024 2 29) /\
  strptime_Ymd "2023-2-29" = None /\
  strptime_Ymd "2024-13-1" = None /\
  strptime_Ymd "2024-0-1" = None /\
  strptime_Ymd "2024-1-32" = None /\
  strptime_Ymd "0000-1-1" = None.
Proof. repeat split; reflexivity. Qed.

(** ** Results and loops *)

Lemma mapM_raise {A B : Type} (f : A -> result B) (xs : list A) :
  (exists x e, In x xs /\ f x = Raise e) ->
  exists x e, In x xs /\ f x = Raise e /\ mapM f xs = Raise e.
Proof.
  induction xs as [|a xs IH]; intros (x & e & Hin & Hx).
  - destruct Hin.
  - simpl. destruct (f a) as [b|e'] eqn:Ha.
    + destruct Hin as [->|Hin]; [congruence|].
      destruct IH as (x' & e'' & Hin' & Hx' & Hm); [now exists x, e|].
      exists x', e''. simpl. rewrite Hm. auto.
    + exists a, e'. simpl. auto.
Qed.

Lemma mapM_ok {A B : Type} (f : A -> result B) (xs : list A) (ys : list B) :
  mapM f xs = Ok ys -> Forall2 (fun x y => f x = Ok y) xs ys.
Proof.
  revert ys; induction xs as [|a xs IH]; simpl; intros ys H.
  - injection H as <-. constructor.
  - destruct (f a) as [b|e] eqn:Ha; simpl in H; [|discriminate].
    destruct (mapM f xs) as [bs|e] eqn:Hm; simpl in H; [|discriminate].
    injection H as <-. constructor; auto.
Qed.

Lemma mapM_of_Forall2 {A B : Type} (f : A -> result B) (xs : list A) (ys : list B) :
  Forall2 (fun x y => f x = Ok y) xs ys -> mapM f xs = Ok ys.
Proof.
  induction 1 as [|x y xs ys Hx _ IH]; simpl; [reflexivity|].
  now rewrite Hx, IH.
Qed.

Lemma mapM_total {A B : Type} (f : A -> result B) (xs : list A) :
  (exists ys, mapM f xs = Ok ys) \/
  (exists x e, In x xs /\ f x = Raise e /\ mapM f xs = Raise e).
Proof.
  induction xs as [|a xs IH]; simpl.
  - left. now exists [].
  - destruct (f a) as [b|e] eqn:Ha; simpl.
    + destruct IH as [(bs & ->)|(x & e & Hin & Hx & ->)]; simpl.
      * left. now exists (b :: bs).
      * right. exists x, e. auto.
    + right. exists a, e. auto.
Qed.

(** ** The transposition *)

Lemma tuple_eqb_eq (xs ys : list string) : tuple_eqb xs ys = true <-> xs = ys.
Proof.
  revert ys; induction xs as [|x xs IH]; destruct ys as [|y ys]; simpl;
    try (split; [discriminate|discriminate]); try tauto.
  rewrite andb_true_iff, String.eqb_eq, IH. split.
  - intros [-> ->]. reflexivity.
  - intros H. injection H as -> ->. auto.
Qed.

Lemma zip_with_cons_length (row : list string) (columns : list (list string)) (n : nat) :
  Forall (fun column => List.length column = n) columns ->
  Forall (fun column => List.length column = S n) (zip_with cons row columns).
Proof.
  revert columns; induction row as [|cell row IH]; intros columns H; simpl.
  - constructor.
  - destruct columns as [|column columns]; [constructor|].
    inversion H; subst. constructor; simpl; auto.
Qed.

(** Every tuple of the transposition has one cell per row. *)
Lemma zip_star_length (rows : list (list string)) :
  Forall (fun column => List.length column = List.length rows) (zip_star rows).
Proof.
  induction rows as [|row rest IH]; [constructor|].
  destruct rest as [|row' rest'].
  - simpl. induction row; simpl; constructor; auto.
  - change (zip_star (row :: row' :: rest'))
      with (zip_with cons row (zip_star (row' :: rest'))).
    now apply zip_with_cons_length.
Qed.

Lemma unpack_forecast_five (column : list string) :
  List.length column = 5%nat ->
  exists h t w wd rf,
    column = [h; t; w; wd; rf] /\ unpack_forecast column = from_strings h t w wd rf.
Proof.
  destruct column as [|h [|t [|w [|wd [|rf [|x column]]]]]]; simpl; try discriminate.
  intros _. now exists h, t, w, wd, rf.
Qed.

Lemma from_strings_raise (h t w wd rf : string) (e : exn) :
  from_strings h t w wd rf = Raise e ->
  exists target literal,
    e = FieldParseError target literal /\
    conversion_fails target literal /\ In literal [h; t; w; wd; rf].
Proof.
  unfold from_strings, py_int, py_float.
  destruct (int_of_str h) eqn:Hh; simpl.
  2:{ intros [= <-]. exists ToInt, h. simpl. tauto. }
  destruct (float_of_str t) eqn:Ht; simpl.
  2:{ intros [= <-]. exists ToFloat, t. simpl. tauto. }
  destruct (int_of_str w) eqn:Hw; simpl.
  2:{ intros [= <-]. exists ToInt, w. simpl. tauto. }
  destruct (float_of_str rf) eqn:Hr; simpl.
  2:{ intros [= <-]. exists ToFloat, rf. simpl. tauto. }
  discriminate.
Qed.

Lemma from_strings_ok (h t w wd rf : string) (r : ThreeHourForecast) :
  from_strings h t w wd rf = Ok r -> converted [h; t; w; wd; rf] r.
Proof.
  unfold from_strings, py_int, py_float.
  destruct (int_of_str h) eqn:Hh; simpl; [|discriminate].
  destruct (float_of_str t) eqn:Ht; simpl; [|discriminate].
  destruct (int_of_str w) eqn:Hw; simpl; [|discriminate].
  destruct (float_of_str rf) eqn:Hr; simpl; [|discriminate].
  intros [= <-]. exists h, t, w, wd, rf. simpl. tauto.
Qed.

Lemma from_strings_fails (h t w wd rf : string) :
  int_of_str h = None \/ float_of_str t = None \/
  int_of_str w = None \/ float_of_str rf = None ->
  exists e, from_strings h t w wd rf = Raise e.
Proof.
  unfold from_strings, py_int, py_float. intros H.
  destruct (int_of_str h); simpl; [|eauto].
  destruct (float_of_str t); simpl; [|eauto].
  destruct (int_of_str w); simpl; [|eauto].
  destruct (float_of_str rf); simpl; [|eauto].
  destruct H as [H|[H|[H|H]]]; discriminate.
Qed.

(** What the parser does once the date is read and the transposition has a
    first tuple. *)
Lemma parse_after_caption (table : Element) (d : date) (header : list string)
  (columns : list (list string)) :
  forecast_date_of table = Ok d ->
  zip_star (tr table) = header :: columns ->
  parse_forecast_table table =
    if negb (tuple_eqb header EXPECTED_DIMENSIONS)
    then Raise (TableShapeError header)
    else (day_forecast <- mapM unpack_forecast columns ;; Ok (d, day_forecast)).
Proof.
  intros Hd Hz. unfold parse_forecast_table. rewrite Hd. simpl. now rewrite Hz.
Qed.

(** Under the expected header there are five rows, so every column unpacks
    into five names. *)
Lemma columns_have_five_cells (table : Element) (columns : list (list string)) :
  zip_star (tr table) = EXPECTED_DIMENSIONS :: columns ->
  List.length (tr table) = 5%nat /\
  Forall (fun column => List.length column = 5%nat) columns.
Proof.
  intros Hz. pose proof (zip_star_length (tr table)) as H. rewrite Hz in H.
  inversion H as [|? ? H5 Hrest]; subst. simpl in H5.
  split; [now symmetry|]. rewrite <- H5 in Hrest. exact Hrest.
Qed.

(** ** The classifier *)

(** C1. [is_strong] is true exactly when the wind speed is at least 20 and
    the hour lies between 9 and 16, both ends included; the five records of
    the boundary table are classified as listed.  The predicate is a total
    function of the record alone. *)
Theorem is_strong_iff_speed_and_hour :
  (forall r : ThreeHourForecast,
      is_strong r = true <-> (20 <= wind_speed r /\ 9 <= hour r <= 16)) /\
  (forall (t rf : pyfloat) (wd : string),
      is_strong (mkForecast 9 t 20 wd rf) = true /\
      is_strong (mkForecast 16 t 20 wd rf) = true /\
      is_strong (mkForecast 8 t 20 wd rf) = false /\
      is_strong (mkForecast 9 t 19 wd rf) = false /\
      is_strong (mkForecast 17 t 100 wd rf) = false).
Proof.
  split.
  - intros r. unfold is_strong, HOUR_RANGE, MIN_WIND_SPEED.
    rewrite !andb_true_iff, !Z.leb_le. tauto.
  - intros t rf wd. repeat split; reflexivity.
Qed.

(** ** The caption *)

(** C8. A table without a caption raises the missing-caption error; the
    caption "Forecast Date: 2024-3-5" gives the date 2024-03-05; the caption
    "Forecast Date: 2024/03/05" raises the date-format error, and so does
    every caption the pattern does not match or whose captured text is not
    a calendar date. *)
Theorem caption_handling :
  (forall rows, parse_forecast_table (mkElement None rows) = Raise MissingCaptionError) /\
  (forall rows,
      forecast_date_of (mkElement (Some "Forecast Date: 2024-3-5") rows)
      = Ok (mkdate 2024 3 5)) /\
  (forall rows,
      parse_forecast_table (mkElement (Some "Forecast Date: 2024/03/05") rows)
      = Raise (DateFormatError "Forecast Date: 2024/03/05")) /\
  (forall table_caption rows,
      re_match_forecast_date table_caption = None ->
      parse_forecast_table (mkElement (Some table_caption) rows)
      = Raise (DateFormatError table_caption)) /\
  (forall table_caption group1 rows,
      re_match_forecast_date table_caption = Some group1 ->
      strptime_Ymd group1 = None ->
      parse_forecast_table (mkElement (Some table_caption) rows)
      = Raise (DateFormatError table_caption)) /\
  parse_forecast_table stanley_table
  = Ok (mkdate 2024 3 5,
        [ mkForecast 8 (FDec false 20 0) 15 "E" (FDec false 0 0);
          mkForecast 9 (FDec false 215 (-1)) 25 "E" (FDec false 5 (-1));
          mkForecast 17 (FDec false 19 0) 30 "NE" (FDec false 0 0) ]).
Proof.
  split; [|split; [|split; [|split; [|split]]]].
  - intros rows. reflexivity.
  - intros rows. reflexivity.
  - intros rows. reflexivity.
  - intros c rows Hm. unfold parse_forecast_table, forecast_date_of. simpl.
    now rewrite Hm.
  - intros c g rows Hm Hs. unfold parse_forecast_table, forecast_date_of. simpl.
    now rewrite Hm, Hs.
  - reflexivity.
Qed.

(** A caption that matches the pattern and names the 30th of February. *)
Example caption_of_no_calendar_day :
  re_match_forecast_date "Forecast Date: 2023-2-30" = Some "2023-2-30" /\
  strptime_Ymd "2023-2-30" = None /\
  parse_forecast_table
    (mkElement (Some "Forecast Date: 2023-2-30") (tr stanley_table))
  = Raise (DateFormatError "Forecast Date: 2023-2-30").
Proof. split; [|split]; reflexivity. Qed.

Lemma caption_handling_witness :
  re_match_forecast_date "Forecast Date: 2023-2-30" = Some "2023-2-30" /\
  strptime_Ymd "2023-2-30" = None /\
  parse_forecast_table (mkElement (Some "Forecast Date: 2023-2-30") [])
  = Raise (DateFormatError "Forecast Date: 2023-2-30").
Proof.
  split; [reflexivity|]. split; [reflexivity|].
  apply (proj1 (proj2 (proj2 (proj2 (proj2 caption_handling))))
           "Forecast Date: 2023-2-30" "2023-2-30" []); reflexivity.
Defined.

(** ** The header *)

(** C2, as the specification states it, fails: a table whose header column
    is exactly the sequence the specification prints (with the degree sign)
    is rejected, and a table whose header column differs from that sequence
    (it has "oC") passes and is parsed. *)
Lemma spec_header_is_rejected :
  (hd [] (zip_star (tr degree_sign_table)) = SPEC_DIMENSIONS /\
   parse_forecast_table degree_sign_table = Raise (TableShapeError SPEC_DIMENSIONS)) /\
  (hd [] (zip_star (tr stanley_table)) <> SPEC_DIMENSIONS /\
   exists parsed, parse_forecast_table stanley_table = Ok parsed).
Proof.
  split; split.
  - reflexivity.
  - reflexivity.
  - discriminate.
  - eexists. reflexivity.
Qed.

(** C2, amended.  For a table whose caption gives a date and whose
    transposition has a first tuple (the header column): when that tuple is
    not the five strings of [EXPECTED_DIMENSIONS] (the second being
    "Temperature (oC)") in order and text, the parser raises the
    table-shape error carrying the tuple; this is so whenever the table
    has not exactly five rows; and when the tuple is [EXPECTED_DIMENSIONS]
    the parser goes on to the records: it returns them or raises a field
    conversion error, never the table-shape error. *)
Theorem header_validation (table : Element) (d : date) (header : list string)
  (columns : list (list string)) :
  forecast_date_of table = Ok d ->
  zip_star (tr table) = header :: columns ->
  (header <> EXPECTED_DIMENSIONS ->
     parse_forecast_table table = Raise (TableShapeError header)) /\
  (List.length (tr table) <> 5%nat ->
     parse_forecast_table table = Raise (TableShapeError header)) /\
  (header = EXPECTED_DIMENSIONS ->
     (exists day_forecast, parse_forecast_table table = Ok (d, day_forecast)) \/
     (exists target literal,
        parse_forecast_table table = Raise (FieldParseError target literal))).
Proof.
  intros Hd Hz. rewrite (parse_after_caption table d header columns Hd Hz).
  assert (Hne : header <> EXPECTED_DIMENSIONS ->
                negb (tuple_eqb header EXPECTED_DIMENSIONS) = true).
  { intros Hne. destruct (tuple_eqb header EXPECTED_DIMENSIONS) eqn:E; [|reflexivity].
    apply tuple_eqb_eq in E. contradiction. }
  split; [|split].
  - intros H. now rewrite (Hne H).
  - intros Hlen. rewrite Hne; [reflexivity|]. intros ->.
    apply columns_have_five_cells in Hz. tauto.
  - intros ->. subst.
    replace (tuple_eqb EXPECTED_DIMENSIONS EXPECTED_DIMENSIONS) with true by reflexivity.
    simpl negb. cbv iota.
    destruct (columns_have_five_cells _ _ Hz) as [_ Hfive].
    destruct (mapM_total unpack_forecast columns)
      as [(recs & ->)|(column & e & Hin & Hraise & ->)]; simpl.
    + left. now exists recs.
    + right. rewrite Forall_forall in Hfive.
      destruct (unpack_forecast_five column (Hfive column Hin))
        as (h & t & w & wd & rf & -> & Hu).
      rewrite Hu in Hraise.
      destruct (from_strings_raise _ _ _ _ _ _ Hraise) as (target & literal & -> & _).
      now exists target, literal.
Qed.

Lemma header_validation_witness :
  parse_forecast_table degree_sign_table
  = Raise (TableShapeError
             ["Time (Hour)"; "Temperature (°C)"; "Wind Speed (km/h)";
              "Wind Direction"; "3-Hourly Rainfall (mm)"]).
Proof.
  apply (proj1 (header_validation degree_sign_table (mkdate 2024 3 5)
                  SPEC_DIMENSIONS
                  [["8"; "20"; "15"; "E"; "0"]; ["9"; "21.5"; "25"; "E"; "0.5"];
                   ["17"; "19"; "30"; "NE"; "0"]]
                  eq_refl eq_refl)).
  discriminate.
Defined.

(** C10. With a caption that gives a date and no row at all, the
    transposition is empty and taking its first element raises the
    index error: the table-shape error is not what the parser raises. *)
Theorem no_rows_is_index_error (table : Element) (d : date) :
  forecast_date_of table = Ok d ->
  tr table = [] ->
  zip_star (tr table) = [] /\
  parse_forecast_table table = Raise IndexError /\
  forall got, parse_forecast_table table <> Raise (TableShapeError got).
Proof.
  intros Hd Hrows. unfold parse_forecast_table. rewrite Hd, Hrows. simpl.
  repeat split. discriminate.
Qed.

Lemma no_rows_is_index_error_witness :
  parse_forecast_table (mkElement (Some "Forecast Date: 2024-3-5") [])
  = Raise IndexError.
Proof.
  apply (no_rows_is_index_error
           (mkElement (Some "Forecast Date: 2024-3-5") []) (mkdate 2024 3 5));
    reflexivity.
Defined.

(** ** The records *)

(** C7, as the specification states it, fails: the error of a conversion
    does not name the offending field.  A table whose hour is "x" and a
    table whose wind speed is "x" raise the same error, the [ValueError] of
    [int("x")], so nothing read off the error tells the two fields apart. *)
Lemma conversion_error_names_no_field :
  offending_field ["x"; "20"; "25"; "E"; "0"] = Some Hour /\
  offending_field ["9"; "20"; "x"; "E"; "0"] = Some WindSpeed /\
  parse_forecast_table bad_hour_x_table = Raise (FieldParseError ToInt "x") /\
  parse_forecast_table bad_speed_x_table = Raise (FieldParseError ToInt "x") /\
  ~ (exists named : exn -> field,
       forall (table : Element) (d : date) (column : list string) (e : exn),
         forecast_date_of table = Ok d ->
         zip_star (tr table) = [EXPECTED_DIMENSIONS; column] ->
         parse_forecast_table table = Raise e ->
         offending_field column = Some (named e)).
Proof.
  split; [reflexivity|]. split; [reflexivity|].
  split; [reflexivity|]. split; [reflexivity|].
  intros (named & H).
  pose proof (H bad_hour_x_table (mkdate 2024 3 5) ["x"; "20"; "25"; "E"; "0"]
                (FieldParseError ToInt "x") eq_refl eq_refl eq_refl) as H1.
  pose proof (H bad_speed_x_table (mkdate 2024 3 5) ["9"; "20"; "x"; "E"; "0"]
                (FieldParseError ToInt "x") eq_refl eq_refl eq_refl) as H2.
  change (Some Hour = Some (named (FieldParseError ToInt "x"))) in H1.
  change (Some WindSpeed = Some (named (FieldParseError ToInt "x"))) in H2.
  congruence.
Qed.

(** C7, amended.  In a table whose caption gives a date and whose header
    column is the expected one, if an hour or a wind speed of some column
    is not an integer text, or a temperature or a rainfall is not a number
    text, the parser raises for the whole table the error of a conversion
    that failed, which tells the conversion ([int] or [float]) and carries
    the text of a cell of the table that does not convert, not the name of
    its field; no record of the table is returned. *)
Theorem field_conversion_failure_is_fatal (table : Element) (d : date)
  (columns : list (list string)) (h t w wd rf : string) :
  forecast_date_of table = Ok d ->
  zip_star (tr table) = EXPECTED_DIMENSIONS :: columns ->
  In [h; t; w; wd; rf] columns ->
  int_of_str h = None \/ float_of_str t = None \/
  int_of_str w = None \/ float_of_str rf = None ->
  (exists target literal,
      parse_forecast_table table = Raise (FieldParseError target literal) /\
      conversion_fails target literal /\
      In literal (List.concat columns)) /\
  forall parsed, parse_forecast_table table <> Ok parsed.
Proof.
  intros Hd Hz Hin Hbad.
  rewrite (parse_after_caption table d _ columns Hd Hz).
  replace (tuple_eqb EXPECTED_DIMENSIONS EXPECTED_DIMENSIONS) with true by reflexivity.
  simpl negb. cbv iota.
  destruct (columns_have_five_cells _ _ Hz) as [_ Hfive].
  rewrite Forall_forall in Hfive.
  destruct (from_strings_fails h t w wd rf Hbad) as (e0 & He0).
  destruct (mapM_raise unpack_forecast columns) as (column & e & Hc & Hraise & ->).
  { exists [h; t; w; wd; rf], e0. auto. }
  simpl. split; [|discriminate].
  destruct (unpack_forecast_five column (Hfive column Hc))
    as (h' & t' & w' & wd' & rf' & -> & Hu).
  rewrite Hu in Hraise.
  destruct (from_strings_raise _ _ _ _ _ _ Hraise) as (target & literal & -> & Hf & Hl).
  exists target, literal. repeat split; auto.
  apply in_concat. eauto.
Qed.

Lemma field_conversion_failure_is_fatal_witness :
  (exists target literal,
      parse_forecast_table bad_speed_table = Raise (FieldParseError target literal) /\
      conversion_fails target literal /\
      In literal (List.concat [["9"; "20"; "25"; "E"; "0"]; ["10"; "21"; "gale"; "E"; "0"]])) /\
  forall parsed, parse_forecast_table bad_speed_table <> Ok parsed.
Proof.
  apply (field_conversion_failure_is_fatal bad_speed_table (mkdate 2024 3 5)
           [["9"; "20"; "25"; "E"; "0"]; ["10"; "21"; "gale"; "E"; "0"]]
           "10" "21" "gale" "E" "0").
  - reflexivity.
  - reflexivity.
  - simpl. right. left. reflexivity.
  - right. right. left. reflexivity.
Defined.

Example bad_speed_table_error :
  parse_forecast_table bad_speed_table = Raise (FieldParseError ToInt "gale").
Proof. reflexivity. Qed.

(** C9, as the specification states it, fails: the parser accepts a table
    whose record has the hour 25, the wind speed -3 and the rainfall -1.5. *)
Lemma parsed_record_out_of_range :
  parse_forecast_table out_of_range_table
  = Ok (mkdate 2024 3 5,
        [mkForecast 25 (FDec true 300 0) (-3) "E" (FDec true 15 (-1))]) /\
  ~ (forall table d records,
        parse_forecast_table table = Ok (d, records) ->
        Forall in_data_model_ranges records).
Proof.
  split; [reflexivity|].
  intros H.
  specialize (H out_of_range_table _ _ eq_refl).
  inversion H as [|r rs Hr _]; subst.
  destruct Hr as [[_ Hh] _]. simpl in Hh. lia.
Qed.

Lemma converted_unpacks (column : list string) (r : ThreeHourForecast) :
  converted column r -> unpack_forecast column = Ok r.
Proof.
  intros (h & t & w & wd & rf & -> & Hh & Ht & Hw & Hd & Hr).
  destruct r as [rh rt rw rd rr]. simpl in *. subst wd.
  unfold from_strings, py_int, py_float. now rewrite Hh, Ht, Hw, Hr.
Qed.

(** C9, amended.  A parse succeeds with a date and records exactly when
    the caption gives that date, the header column is the expected one and
    every record is made of the column at its place after the header: its
    hour and wind speed are the integers that [int] reads in the first and
    third cells, its temperature and rainfall the numbers that [float]
    reads in the second and fifth, its direction the fourth cell.  Nothing
    else is checked: no range bounds the values. *)
Theorem parsed_records_are_conversions (table : Element) (d : date)
  (records : list ThreeHourForecast) :
  parse_forecast_table table = Ok (d, records) <->
  (forecast_date_of table = Ok d /\
   hd_error (zip_star (tr table)) = Some EXPECTED_DIMENSIONS /\
   Forall2 converted (tl (zip_star (tr table))) records).
Proof.
  unfold parse_forecast_table. split.
  - destruct (forecast_date_of table) as [d'|e]; simpl; [|discriminate].
    destruct (zip_star (tr table)) as [|header columns] eqn:Hz; [discriminate|].
    destruct (tuple_eqb header EXPECTED_DIMENSIONS) eqn:E; simpl; [|discriminate].
    apply tuple_eqb_eq in E. subst header.
    destruct (mapM unpack_forecast columns) as [recs|e] eqn:Hm; simpl; [|discriminate].
    intros [= <- <-]. split; [reflexivity|]. split; [reflexivity|].
    destruct (columns_have_five_cells _ _ Hz) as [_ Hfive].
    apply mapM_ok in Hm. clear Hz.
    induction Hm as [|column r columns recs Hu _ IH]; [constructor|].
    inversion Hfive; subst. constructor; auto.
    destruct (unpack_forecast_five column) as (h & t & w & wd & rf & -> & Hu'); auto.
    rewrite Hu' in Hu. now apply from_strings_ok.
  - intros (-> & Hh & Hc). simpl.
    destruct (zip_star (tr table)) as [|header columns]; [discriminate|].
    simpl in Hh, Hc. injection Hh as ->.
    replace (tuple_eqb EXPECTED_DIMENSIONS EXPECTED_DIMENSIONS) with true by reflexivity.
    simpl negb. cbv iota.
    rewrite (mapM_of_Forall2 unpack_forecast columns records); [reflexivity|].
    eapply Forall2_impl; [|exact Hc]. intros column r. apply converted_unpacks.
Qed.

Lemma parsed_records_are_conversions_witness :
  Forall2 converted (tl (zip_star (tr out_of_range_table)))
    [mkForecast 25 (FDec true 300 0) (-3) "E" (FDec true 15 (-1))].
Proof.
  apply (proj1 (parsed_records_are_conversions out_of_range_table (mkdate 2024 3 5) _)).
  reflexivity.
Defined.

(** ** Dictionaries *)

Lemma date_eqb_eq (a b : date) : date_eqb a b = true <-> a = b.
Proof.
  destruct a as [y m d], b as [y' m' d']. unfold date_eqb. simpl.
  rewrite !andb_true_iff, !Z.eqb_eq. split.
  - intros [[-> ->] ->]. reflexivity.
  - intros [= -> -> ->]. auto.
Qed.

Section DictFacts.
Context {K V : Type} (eqb : K -> K -> bool).
Hypothesis eqb_eq : forall a b, eqb a b = true <-> a = b.

Lemma eqb_same (a : K) : eqb a a = true.
Proof. now apply eqb_eq. Qed.

Lemma dict_get_set (d : dict (K := K) (V := V)) (k k' : K) (v : V) :
  dict_get eqb (dict_set eqb d k v) k'
  = if eqb k' k then Some v else dict_get eqb d k'.
Proof.
  induction d as [|[k0 v0] d IH]; simpl.
  - reflexivity.
  - destruct (eqb k k0) eqn:E0; simpl.
    + apply eqb_eq in E0. subst k0. now destruct (eqb k' k).
    + rewrite IH. destruct (eqb k' k0) eqn:E1; [|reflexivity].
      destruct (eqb k' k) eqn:E2; [|reflexivity].
      apply eqb_eq in E1, E2. subst. rewrite eqb_same in E0. discriminate.
Qed.

Lemma dict_get_none (d : dict (K := K) (V := V)) (k : K) :
  dict_get eqb d k = None <-> ~ In k (keys d).
Proof.
  induction d as [|[k0 v0] d IH]; simpl.
  - tauto.
  - destruct (eqb k k0) eqn:E.
    + apply eqb_eq in E. subst. split; [discriminate|]. intros H. exfalso. auto.
    + rewrite IH. split.
      * intros H [->|Hin]; [rewrite eqb_same in E; discriminate|auto].
      * intros H Hin. auto.
Qed.

Lemma dict_get_in (d : dict (K := K) (V := V)) (k : K) (v : V) :
  dict_get eqb d k = Some v -> In (k, v) d.
Proof.
  induction d as [|[k0 v0] d IH]; simpl; [discriminate|].
  destruct (eqb k k0) eqn:E; auto.
  apply eqb_eq in E. subst. intros [= ->]. auto.
Qed.

(** Writing a key keeps the keys in their order; a new key goes last. *)
Lemma keys_dict_set (d : dict (K := K) (V := V)) (k : K) (v : V) :
  keys (dict_set eqb d k v)
  = match dict_get eqb d k with
    | Some _ => keys d
    | None => (keys d ++ [k])%list
    end.
Proof.
  unfold keys. induction d as [|[k0 v0] d IH]; simpl; [reflexivity|].
  destruct (eqb k k0) eqn:E; simpl; [reflexivity|].
  rewrite IH. now destruct (dict_get eqb d k).
Qed.

Lemma dict_set_NoDup (d : dict (K := K) (V := V)) (k : K) (v : V) :
  NoDup (keys d) -> NoDup (keys (dict_set eqb d k v)).
Proof.
  intros H. rewrite keys_dict_set.
  destruct (dict_get eqb d k) eqn:E; [assumption|].
  apply dict_get_none in E.
  apply NoDup_rev in H. rewrite <- (rev_involutive (keys d ++ [k])).
  apply NoDup_rev. rewrite rev_app_distr. simpl. constructor; [|assumption].
  now rewrite <- in_rev.
Qed.

Lemma dict_set_Forall (P : K * V -> Prop) (d : dict (K := K) (V := V))
  (k : K) (v : V) :
  Forall P d -> P (k, v) -> Forall P (dict_set eqb d k v).
Proof.
  intros Hd Hkv. induction d as [|[k0 v0] d IH]; simpl.
  - auto.
  - inversion Hd; subst. destruct (eqb k k0) eqn:E.
    + apply eqb_eq in E. subst. auto.
    + auto.
Qed.
End DictFacts.

(** ** The grouping *)

Lemma aggregate_get_group_step (agg : aggregate) (d d' : date)
  (location location' : string) (forecasts : list ThreeHourForecast) :
  aggregate_get (group_step agg (d, location, forecasts)) d' location'
  = if date_eqb d' d && String.eqb location' location
    then Some forecasts else aggregate_get agg d' location'.
Proof.
  unfold aggregate_get, group_step.
  rewrite (dict_get_set date_eqb date_eqb_eq).
  destruct (date_eqb d' d) eqn:E; simpl; [|reflexivity].
  apply date_eqb_eq in E. subst d'.
  rewrite (dict_get_set String.eqb String.eqb_eq).
  destruct (String.eqb location' location); [reflexivity|].
  now destruct (dict_get date_eqb agg d).
Qed.

Lemma aggregate_get_fold (date_locations : list finding) (agg : aggregate)
  (d : date) (location : string) :
  aggregate_get (fold_left group_step date_locations agg) d location
  = match last_finding date_locations d location with
    | Some forecasts => Some forecasts
    | None => aggregate_get agg d location
    end.
Proof.
  revert agg. induction date_locations as [|[[d' location'] forecasts] rest IH];
    intros agg; cbn [fold_left last_finding].
  - reflexivity.
  - rewrite IH. destruct (last_finding rest d location); [reflexivity|].
    rewrite aggregate_get_group_step.
    now destruct (date_eqb d d' && String.eqb location location').
Qed.

Lemma group_step_well_keyed (agg : aggregate) (f : finding) :
  well_keyed agg -> well_keyed (group_step agg f).
Proof.
  destruct f as [[d location] forecasts]. intros [Hk Hv]. unfold group_step. split.
  - now apply (dict_set_NoDup date_eqb date_eqb_eq).
  - apply (dict_set_Forall date_eqb date_eqb_eq); [assumption|]. simpl.
    apply (dict_set_NoDup String.eqb String.eqb_eq).
    destruct (dict_get date_eqb agg d) as [stored|] eqn:E; [|constructor].
    apply (dict_get_in date_eqb date_eqb_eq) in E.
    rewrite Forall_forall in Hv. apply (Hv _ E).
Qed.

Lemma fold_group_step_well_keyed (date_locations : list finding) (agg : aggregate) :
  well_keyed agg -> well_keyed (fold_left group_step date_locations agg).
Proof.
  revert agg. induction date_locations as [|f rest IH]; intros agg H; simpl.
  - assumption.
  - apply IH. now apply group_step_well_keyed.
Qed.

(** C4. [group_by_date_location] is a total function of the list of
    findings; its result is a mapping (no date twice, no location twice
    under a date) in which a (date, location) pair holds the records of the
    last finding of the input with that pair, and nothing when there is
    none.  The three findings of 2024-03-05 at S and TM and 2024-03-06 at S
    give two dates, the first with two locations and the second with one. *)
Theorem group_by_date_location_last_write_wins :
  (forall (date_locations : list finding) (d : date) (location : string),
      aggregate_get (group_by_date_location date_locations) d location
      = last_finding date_locations d location) /\
  (forall date_locations : list finding,
      well_keyed (group_by_date_location date_locations)) /\
  (forall h9 h10 h12 : ThreeHourForecast,
      group_by_date_location
        [ (mkdate 2024 3 5, "S", [h9]); (mkdate 2024 3 5, "TM", [h10]);
          (mkdate 2024 3 6, "S", [h12]) ]
      = [ (mkdate 2024 3 5, [("S", [h9]); ("TM", [h10])]);
          (mkdate 2024 3 6, [("S", [h12])]) ]).
Proof.
  split; [|split].
  - intros date_locations d location. unfold group_by_date_location.
    rewrite aggregate_get_fold. now destruct (last_finding date_locations d location).
  - intros date_locations. apply fold_group_step_well_keyed.
    split; constructor.
  - intros h9 h10 h12. reflexivity.
Qed.

(** A pair that comes twice keeps its place and takes the later records. *)
Example group_by_date_location_overwrites (h9 h10 h11 : ThreeHourForecast) :
  group_by_date_location
    [ (mkdate 2024 3 5, "S", [h9]); (mkdate 2024 3 5, "TM", [h10]);
      (mkdate 2024 3 5, "S", [h11; h9]) ]
  = [ (mkdate 2024 3 5, [("S", [h11; h9]); ("TM", [h10])]) ].
Proof. reflexivity. Qed.

(** ** Text *)

Lemma append_assoc (a b c : string) : (a ++ b) ++ c = a ++ (b ++ c).
Proof. induction a as [|x a IH]; simpl; [reflexivity|now rewrite IH]. Qed.

Lemma append_nil_r (a : string) : a ++ "" = a.
Proof. induction a as [|x a IH]; simpl; [reflexivity|now rewrite IH]. Qed.

(** Joining non-empty lines with a newline and closing with one is ending
    every line with a newline. *)
Lemma join_lines {A : Type} (line : A -> string) (xs : list A) :
  xs <> [] ->
  join NL (map line xs) ++ NL = concat_text (map (fun x => line x ++ NL) xs).
Proof.
  induction xs as [|x xs IH]; [congruence|]. intros _.
  destruct xs as [|y xs].
  - simpl. now rewrite append_nil_r.
  - change (join NL (map line (x :: y :: xs)))
      with (line x ++ NL ++ join NL (map line (y :: xs))).
    rewrite !append_assoc, IH by discriminate.
    cbn [map concat_text]. now rewrite !append_assoc.
Qed.

Lemma spec_record_line_summary (r : ThreeHourForecast) :
  spec_record_line r = (TAB ++ summary r) ++ NL.
Proof. unfold spec_record_line, summary. now rewrite !append_assoc. Qed.

(** ** The alert *)

Lemma LOCATIONS_getitem_known (location : string) :
  known_location location -> LOCATIONS_getitem location = Ok (display_name location).
Proof.
  unfold known_location, LOCATIONS_getitem, display_name. intros H.
  destruct (dict_get String.eqb LOCATIONS location) eqn:E; [reflexivity|].
  apply (dict_get_none String.eqb String.eqb_eq) in E. contradiction.
Qed.

Lemma names_of_locations (locations : locations_dict) :
  Forall (fun entry => known_location (fst entry) /\ snd entry <> []) locations ->
  mapM (fun '(location, _) => LOCATIONS_getitem location) locations
  = Ok (map display_name (keys locations)).
Proof.
  induction 1 as [|[location forecasts] locations [Hk _] _ IH]; simpl.
  - reflexivity.
  - simpl in Hk. rewrite (LOCATIONS_getitem_known _ Hk). simpl.
    rewrite IH. reflexivity.
Qed.

Lemma date_summary_of_aggregate (agg : aggregate) :
  well_formed_aggregate agg ->
  mapM date_summary_entry agg = Ok (map spec_segment agg).
Proof.
  induction 1 as [|[d locations] agg Hl _ IH]; simpl.
  - reflexivity.
  - simpl in Hl. rewrite (names_of_locations _ Hl). simpl. rewrite IH. reflexivity.
Qed.

Lemma body_of_locations (locations : locations_dict) (message_body : string) :
  Forall (fun entry => known_location (fst entry) /\ snd entry <> []) locations ->
  foldM body_location locations message_body
  = Ok (message_body ++ concat_text (map spec_location_block locations)).
Proof.
  intros H. revert message_body.
  induction H as [|[location forecasts] locations [Hk Hne] _ IH];
    intros message_body; simpl.
  - now rewrite append_nil_r.
  - simpl in Hk, Hne. rewrite (LOCATIONS_getitem_known _ Hk). simpl.
    rewrite IH. f_equal. unfold spec_location_block. simpl fst. simpl snd.
    rewrite !append_assoc. do 3 f_equal.
    rewrite <- append_assoc, (join_lines _ _ Hne). f_equal. f_equal.
    apply map_ext. intros r. now rewrite spec_record_line_summary.
Qed.

Lemma body_of_aggregate (agg : aggregate) (message_body : string) :
  well_formed_aggregate agg ->
  foldM body_date agg message_body
  = Ok (message_body ++ concat_text (map spec_date_block agg)).
Proof.
  intros H. revert message_body.
  induction H as [|[d locations] agg Hl _ IH]; intros message_body; simpl.
  - now rewrite append_nil_r.
  - simpl in Hl. rewrite (body_of_locations _ _ Hl). simpl. rewrite IH.
    f_equal. unfold spec_date_block. simpl fst. simpl snd.
    now rewrite !append_assoc.
Qed.

Lemma group_step_well_formed (agg : aggregate) (f : finding) :
  well_formed_finding f -> well_formed_aggregate agg ->
  well_formed_aggregate (group_step agg f).
Proof.
  destruct f as [[d location] forecasts]. intros [Hk Hne] Hagg.
  unfold group_step, well_formed_aggregate.
  apply (dict_set_Forall date_eqb date_eqb_eq); [assumption|]. simpl.
  apply (dict_set_Forall String.eqb String.eqb_eq); [|now split].
  destruct (dict_get date_eqb agg d) as [stored|] eqn:E; [|constructor].
  apply (dict_get_in date_eqb date_eqb_eq) in E.
  unfold well_formed_aggregate in Hagg. rewrite Forall_forall in Hagg.
  apply (Hagg _ E).
Qed.

Lemma group_by_date_location_well_formed (date_locations : list finding) :
  Forall well_formed_finding date_locations ->
  well_formed_aggregate (group_by_date_location date_locations).
Proof.
  unfold group_by_date_location.
  assert (G : forall agg, well_formed_aggregate agg ->
                Forall well_formed_finding date_locations ->
                well_formed_aggregate (fold_left group_step date_locations agg)).
  { induction date_locations as [|f rest IH]; intros agg Hagg Hall;
      cbn [fold_left]; [assumption|].
    inversion Hall; subst. apply IH; [|assumption].
    now apply group_step_well_formed. }
  intros H. apply G; [constructor|assumption].
Qed.

(** The alert of an aggregate that is well formed. *)
Lemma generate_alert_of_aggregate (date_locations : list finding) :
  well_formed_aggregate (group_by_date_location date_locations) ->
  generate_alert date_locations
  = Ok (spec_subject (group_by_date_location date_locations),
        spec_body (group_by_date_location date_locations)).
Proof.
  intros H. unfold generate_alert.
  rewrite (date_summary_of_aggregate _ H). simpl.
  rewrite (body_of_aggregate _ "" H). reflexivity.
Qed.

(** ** First-seen order *)









(** ** The handler *)

Lemma foldM_raise {A S : Type} (body : S -> A -> result S) (xs : list A) (x : A) :
  In x xs ->
  (forall s, exists e, body s x = Raise e) ->
  forall s, exists e, foldM body xs s = Raise e.
Proof.
  induction xs as [|a xs IH]; intros Hin Hx s; [destruct Hin|]. simpl.
  destruct (body s a) as [s'|e] eqn:Ha; simpl; [|eauto].
  destruct Hin as [->|Hin]; [|now apply IH].
  destruct (Hx s) as (e & He). congruence.
Qed.

Lemma foldM_raise_inv {A S : Type} (body : S -> A -> result S) (xs : list A)
  (s : S) (e : exn) :
  foldM body xs s = Raise e -> exists x s', In x xs /\ body s' x = Raise e.
Proof.
  revert s. induction xs as [|a xs IH]; intros s; simpl; [discriminate|].
  destruct (body s a) as [s1|e1] eqn:Ha; simpl.
  - intros H. destruct (IH _ H) as (x & s' & Hin & Hx). exists x, s'. auto.
  - intros [= ->]. exists a, s. auto.
Qed.

(** A loop whose turns only append: what it returns is what it started
    from followed by what each turn appends. *)
Lemma foldM_appends {A B : Type} (body : list B -> A -> result (list B))
  (ext : A -> list B) (xs : list A) :
  (forall s x s', body s x = Ok s' -> s' = (s ++ ext x)%list) ->
  forall s s', foldM body xs s = Ok s' -> s' = (s ++ flat_map ext xs)%list.
Proof.
  intros Hbody. induction xs as [|a xs IH]; intros s s'; simpl.
  - intros [= <-]. now rewrite app_nil_r.
  - destruct (body s a) as [s1|e] eqn:Ha; simpl; [|discriminate].
    intros H. apply IH in H. apply Hbody in Ha. subst. now rewrite <- app_assoc.
Qed.

Lemma check_table_appends (location : string) (acc acc' : list finding)
  (table : Element) :
  check_table location acc table = Ok acc' ->
  acc' = (acc ++ table_findings location table)%list.
Proof.
  unfold check_table, table_findings.
  destruct (parse_forecast_table table) as [[d forecasts]|e]; simpl; [|discriminate].
  destruct (filter is_strong forecasts); intros [= <-]; [now rewrite app_nil_r|reflexivity].
Qed.

Lemma check_table_raise (location : string) (acc : list finding) (table : Element)
  (e : exn) :
  check_table location acc table = Raise e <-> parse_forecast_table table = Raise e.
Proof.
  unfold check_table.
  destruct (parse_forecast_table table) as [[d forecasts]|e']; simpl.
  - destruct (filter is_strong forecasts); split; discriminate.
  - split; intros [= ->]; reflexivity.
Qed.

(** The visit of a location is its request followed by the loop over its
    tables. *)
Lemma check_location_calls (get : forecast_source) (acc : list finding)
  (location : string) :
  check_location get acc location
  = ([Requested location], location_result get acc location).
Proof.
  unfold check_location, session_get, location_result, and_then, lift.
  now destruct (get location).
Qed.

Lemma location_result_appends (get : forecast_source) (acc acc' : list finding)
  (location : string) :
  location_result get acc location = Ok acc' ->
  acc' = (acc ++ location_findings get location)%list.
Proof.
  unfold location_result, location_findings.
  destruct (get location) as [tables|e]; simpl; [|discriminate].
  apply foldM_appends. intros s x s'. apply check_table_appends.
Qed.

Lemma location_result_raise (get : forecast_source) (location : string) :
  page_fails get location <->
  exists acc e, location_result get acc location = Raise e.
Proof.
  unfold page_fails, location_result. split.
  - intros [(e & He)|(tables & table & e & Hget & Hin & Hp)].
    + exists [], e. now rewrite He.
    + rewrite Hget. simpl. exists [].
      apply (foldM_raise (check_table location) (tl tables) table Hin).
      intros s. exists e. now apply check_table_raise.
  - intros (acc & e & H). destruct (get location) as [tables|e'] eqn:Hget.
    + right. simpl in H. apply foldM_raise_inv in H.
      destruct H as (table & s' & Hin & Hx). apply check_table_raise in Hx.
      now exists tables, table, e.
    + left. now exists e'.
Qed.

(** Whether the visit of a location raises does not depend on the findings
    gathered before it. *)
Lemma location_result_total (get : forecast_source) (acc : list finding)
  (location : string) :
  (exists acc', location_result get acc location = Ok acc' /\ ~ page_fails get location)
  \/ (exists e, location_result get acc location = Raise e /\ page_fails get location).
Proof.
  destruct (location_result get acc location) as [acc'|e] eqn:H.
  - left. exists acc'. split; [reflexivity|]. intros Hf. revert H.
    unfold location_result.
    destruct Hf as [(e & He)|(tables & table & e & Hget & Hin & Hp)].
    + now rewrite He.
    + rewrite Hget. simpl.
      destruct (foldM_raise (check_table location) (tl tables) table Hin) with (s := acc)
        as (e' & ->); [|discriminate].
      intros s. exists e. now apply check_table_raise.
  - right. exists e. split; [reflexivity|].
    apply location_result_raise. now exists acc, e.
Qed.

(** The loop over the locations: either every page is read and the
    findings of all of them are returned, or the loop stops at the first
    page that fails, the locations after it not being requested. *)
Lemma loop_over_locations (get : forecast_source) (locations : list string)
  (acc : list finding) :
  (for_each (check_location get) locations acc
   = (map Requested locations,
      Ok (acc ++ flat_map (location_findings get) locations)%list)
   /\ Forall (fun l => ~ page_fails get l) locations)
  \/ (exists before first after e,
        locations = (before ++ first :: after)%list /\
        Forall (fun l => ~ page_fails get l) before /\
        page_fails get first /\
        for_each (check_location get) locations acc
        = (map Requested (before ++ [first]), Raise e)).
Proof.
  revert acc. induction locations as [|l ls IH]; intros acc.
  - left. simpl. rewrite app_nil_r. split; [reflexivity|constructor].
  - cbn [for_each]. rewrite check_location_calls.
    destruct (location_result_total get acc l) as [(acc' & Hr & Hok)|(e & Hr & Hbad)];
      rewrite Hr; cbn [and_then].
    + apply location_result_appends in Hr. subst acc'.
      destruct (IH (acc ++ location_findings get l)%list)
        as [[-> Hall]|(before & first & after & e & -> & Hb & Hf & ->)].
      * left. cbn [map flat_map app]. rewrite <- app_assoc.
        split; [reflexivity|now constructor].
      * right. exists (l :: before), first, after, e.
        repeat split; [now constructor|assumption].
    + right. exists [], l, ls, e. repeat split; [constructor|assumption].
Qed.

(** The findings read off the pages are the flagged findings. *)
Lemma in_all_findings (get : forecast_source) (f : finding) :
  In f (all_findings get) <-> flagged get f.
Proof.
  destruct f as [[d location] strong].
  unfold all_findings, flagged. rewrite in_flat_map. split.
  - intros (l & Hl & Hin). unfold location_findings in Hin.
    destruct (get l) as [tables|e] eqn:Hget; [|destruct Hin].
    apply in_flat_map in Hin. destruct Hin as (table & Ht & Hin).
    unfold table_findings in Hin.
    destruct (parse_forecast_table table) as [[d' forecasts]|e] eqn:Hp; [|destruct Hin].
    destruct (filter is_strong forecasts) as [|r rs] eqn:Hf; [destruct Hin|].
    destruct Hin as [[= <- <- <-]|[]].
    split; [exact Hl|]. exists tables, table, forecasts.
    rewrite Hf. repeat split; auto. discriminate.
  - intros (Hl & tables & table & forecasts & Hget & Ht & Hp & Hs & Hne).
    exists location. split; [exact Hl|]. unfold location_findings. rewrite Hget.
    apply in_flat_map. exists table. split; [exact Ht|].
    unfold table_findings. rewrite Hp. rewrite <- Hs.
    destruct strong; [congruence|]. now left.
Qed.

Lemma all_findings_well_formed (get : forecast_source) :
  Forall well_formed_finding (all_findings get).
Proof.
  apply Forall_forall. intros [[d location] strong] Hin.
  apply in_all_findings in Hin.
  destruct Hin as (Hl & tables & table & forecasts & _ & _ & _ & _ & Hne).
  split; assumption.
Qed.

Lemma nonempty_has_flagged (get : forecast_source) :
  all_findings get <> [] <-> exists f, flagged get f.
Proof.
  split.
  - destruct (all_findings get) as [|f fs] eqn:E; [congruence|]. intros _.
    exists f. apply in_all_findings. rewrite E. now left.
  - intros (f & Hf). apply in_all_findings in Hf.
    destruct (all_findings get); [destruct Hf|discriminate].
Qed.

Lemma all_tables_parse_no_failure (get : forecast_source) :
  all_tables_parse get -> Forall (fun l => ~ page_fails get l) (keys LOCATIONS).
Proof.
  intros Hall. apply Forall_forall. intros l Hl.
  destruct (Hall l Hl) as (tables & Hget & Hparse).
  intros [(e & He)|(tables' & table & e & Hget' & Hin & Hp)]; [congruence|].
  assert (tables' = tables) as -> by congruence.
  destruct (Hparse table Hin) as (parsed & Hok). congruence.
Qed.

(** The two ways a run goes: the loop stops at the first page that fails,
    or every page is read and the alert of the findings, if there are any,
    is handed to the notifier. *)
Lemma lambda_handler_runs (get : forecast_source) (publish : notifier) :
  (exists before first after e,
      keys LOCATIONS = (before ++ first :: after)%list /\
      Forall (fun l => ~ page_fails get l) before /\
      page_fails get first /\
      lambda_handler get publish = (map Requested (before ++ [first]), Raise e))
  \/ (Forall (fun l => ~ page_fails get l) (keys LOCATIONS) /\
      all_findings get = [] /\
      lambda_handler get publish = (map Requested (keys LOCATIONS), Ok tt))
  \/ (Forall (fun l => ~ page_fails get l) (keys LOCATIONS) /\
      all_findings get <> [] /\
      lambda_handler get publish
      = ((map Requested (keys LOCATIONS)
          ++ [Alerted (spec_subject (group_by_date_location (all_findings get)))
                (spec_body (group_by_date_location (all_findings get)))])%list,
         publish (spec_subject (group_by_date_location (all_findings get)))
           (spec_body (group_by_date_location (all_findings get))))).
Proof.
  unfold lambda_handler.
  destruct (loop_over_locations get (keys LOCATIONS) [])
    as [[Hloop Hall]|(before & first & after & e & Hsplit & Hb & Hf & Hloop)];
    rewrite Hloop; cbn [and_then].
  - right. change (([] ++ flat_map (location_findings get) (keys LOCATIONS))%list)
      with (all_findings get).
    destruct (all_findings get) as [|f fs] eqn:E.
    + left. cbn [ret]. rewrite app_nil_r. auto.
    + right. rewrite <- E.
      rewrite generate_alert_of_aggregate
        by apply group_by_date_location_well_formed, all_findings_well_formed.
      cbn [lift and_then send_alert app].
      repeat split; [assumption|rewrite E; discriminate].
  - left. now exists before, first, after, e.
Qed.

Lemma sent_of_requests (locations : list string) (calls : list event) :
  flat_map
    (fun call => match call with Alerted s b => [(s, b)] | Requested _ => [] end)
    (map Requested locations ++ calls)
  = flat_map
      (fun call => match call with Alerted s b => [(s, b)] | Requested _ => [] end)
      calls.
Proof. induction locations as [|l ls IH]; simpl; [reflexivity|exact IH]. Qed.

Lemma requested_of_requests (locations : list string) :
  flat_map
    (fun call => match call with Requested l => [l] | Alerted _ _ => [] end)
    (map Requested locations)
  = locations.
Proof. induction locations as [|l ls IH]; simpl; [reflexivity|now rewrite IH]. Qed.

(** What the notifier receives in a run. *)
Lemma sent_of_run (get : forecast_source) (publish : notifier) :
  sent (lambda_handler get publish) = []
  \/ (Forall (fun l => ~ page_fails get l) (keys LOCATIONS) /\
      all_findings get <> [] /\
      sent (lambda_handler get publish)
      = [(spec_subject (group_by_date_location (all_findings get)),
          spec_body (group_by_date_location (all_findings get)))]).
Proof.
  unfold sent.
  destruct (lambda_handler_runs get publish)
    as [(before & first & after & e & _ & _ & _ & ->)|[(_ & _ & ->)|(Hall & Hne & ->)]];
    cbn [fst].
  - left. rewrite <- (app_nil_r (map Requested _)). apply sent_of_requests.
  - left. rewrite <- (app_nil_r (map Requested _)). apply sent_of_requests.
  - right. rewrite sent_of_requests. auto.
Qed.

(** C5, as the specification states it, fails: strong wind is flagged at
    Tai Mei Tuk, the request for Stanley then raises, and the notifier is
    not called. *)
Lemma finding_without_notification :
  flagged source_with_failed_request
    (mkdate 2024 3 5, "TMTWSC",
     [mkForecast 9 (FDec false 215 (-1)) 25 "E" (FDec false 5 (-1))]) /\
  lambda_handler source_with_failed_request delivering
  = ([Requested "TMTWSC"; Requested "S"], Raise (FetchError "S")) /\
  ~ (forall (get : forecast_source) (publish : notifier),
        sent (lambda_handler get publish) <> [] <-> exists f, flagged get f).
Proof.
  assert (F : flagged source_with_failed_request
                (mkdate 2024 3 5, "TMTWSC",
                 [mkForecast 9 (FDec false 215 (-1)) 25 "E" (FDec false 5 (-1))])).
  { split; [now left|].
    exists [legend; stanley_table], stanley_table.
    eexists. split; [reflexivity|]. split; [now left|].
    split; [reflexivity|]. split; [reflexivity|discriminate]. }
  split; [exact F|]. split; [reflexivity|].
  intros H. destruct (H source_with_failed_request delivering) as [_ H2].
  apply H2; [eauto|reflexivity].
Qed.

(** C5, amended.  In every run the notifier is called at most once, only
    if a flagged finding exists (so never when no table yields a strong
    record) and only after every location has been requested; in every run
    in which every location is fetched and every table after the first
    parses, the notifier is called if and only if a flagged finding
    exists.  (A run that a failure ends calls no notifier, whatever was
    flagged before.) *)
Theorem notifier_called_iff_finding :
  (forall (get : forecast_source) (publish : notifier),
      (List.length (sent (lambda_handler get publish)) <= 1)%nat /\
      (sent (lambda_handler get publish) <> [] -> exists f, flagged get f) /\
      ((forall f, ~ flagged get f) -> sent (lambda_handler get publish) = []) /\
      (sent (lambda_handler get publish) <> [] ->
       fst (lambda_handler get publish)
       = (map Requested (keys LOCATIONS)
            ++ alerted (sent (lambda_handler get publish)))%list)) /\
  (forall (get : forecast_source) (publish : notifier),
      all_tables_parse get ->
      (sent (lambda_handler get publish) <> [] <-> exists f, flagged get f)).
Proof.
  assert (A : forall get publish,
             sent (lambda_handler get publish) <> [] -> exists f, flagged get f).
  { intros get publish Hs.
    destruct (sent_of_run get publish) as [E|(_ & Hne & _)]; [contradiction|].
    now apply nonempty_has_flagged. }
  split.
  - intros get publish. split; [|split; [|split]].
    + destruct (sent_of_run get publish) as [->|(_ & _ & ->)]; simpl; lia.
    + apply A.
    + intros Hnone.
      destruct (sent (lambda_handler get publish)) as [|x xs] eqn:E; [reflexivity|].
      destruct (A get publish) as (f & Hf); [rewrite E; discriminate|].
      elim (Hnone f Hf).
    + intros Hs. unfold sent in *.
      destruct (lambda_handler_runs get publish)
        as [(before & first & after & e & _ & _ & _ & H)
           |[(_ & _ & H)|(_ & _ & H)]];
        rewrite H in *; cbn [fst] in *.
      * rewrite <- (app_nil_r (map Requested _)), sent_of_requests in Hs.
        now elim Hs.
      * rewrite <- (app_nil_r (map Requested _)), sent_of_requests in Hs.
        now elim Hs.
      * rewrite sent_of_requests. reflexivity.
  - intros get publish Hall. split; [apply A|].
    intros Hf. apply nonempty_has_flagged in Hf.
    pose proof (all_tables_parse_no_failure get Hall) as Hok.
    destruct (lambda_handler_runs get publish)
      as [(before & first & after & e & Hsplit & _ & Hbad & _)
         |[(_ & Hnil & _)|(_ & _ & H)]].
    + rewrite Forall_forall in Hok. elim (Hok first); [|assumption].
      rewrite Hsplit. apply in_or_app. right. now left.
    + contradiction.
    + unfold sent. rewrite H. cbn [fst]. rewrite sent_of_requests. discriminate.
Qed.

Lemma windy_source_parses : all_tables_parse windy_source.
Proof.
  intros location Hl. unfold windy_source.
  destruct (String.eqb location "S").
  - eexists. split; [reflexivity|]. intros table [<-|[<-|[]]]; eexists; reflexivity.
  - eexists. split; [reflexivity|]. intros table [<-|[]]; eexists; reflexivity.
Qed.

Lemma notifier_called_iff_finding_witness :
  sent (lambda_handler windy_source delivering) <> []
  <-> exists f, flagged windy_source f.
Proof.
  apply (proj2 notifier_called_iff_finding windy_source delivering).
  exact windy_source_parses.
Defined.

(** The end-to-end run: one strong hour at Stanley, one alert after the
    three requests. *)
Example windy_run :
  lambda_handler windy_source delivering
  = ([ Requested "TMTWSC"; Requested "S"; Requested "TM";
       Alerted "Strong wind forecasted: 05/03 @Stanley"
         ("2024-03-05 (Tue)" ++ NL ++ "Stanley" ++ NL
            ++ TAB ++ "9:00 - 25 km/h" ++ NL) ],
     Ok tt).
Proof. reflexivity. Qed.

(** No strong hour anywhere: three requests and nothing sent. *)
Example calm_run :
  lambda_handler calm_source delivering
  = ([Requested "TMTWSC"; Requested "S"; Requested "TM"], Ok tt).
Proof. reflexivity. Qed.

(** C6, as the specification states it, fails: Stanley's table has no
    caption; strong wind is flagged before it at Tai Mei Tuk and on the
    page of Tap Mun after it; the run ends with Stanley's exception, Tap
    Mun is not requested and no alert is sent. *)
Lemma failure_is_not_isolated :
  location_fails source_with_broken_table "S" /\
  flagged source_with_broken_table
    (mkdate 2024 3 5, "TMTWSC",
     [mkForecast 9 (FDec false 215 (-1)) 25 "E" (FDec false 5 (-1))]) /\
  flagged source_with_broken_table
    (mkdate 2024 3 5, "TM",
     [mkForecast 9 (FDec false 215 (-1)) 25 "E" (FDec false 5 (-1))]) /\
  lambda_handler source_with_broken_table delivering
  = ([Requested "TMTWSC"; Requested "S"], Raise MissingCaptionError) /\
  ~ (forall (get : forecast_source) (publish : notifier) (location : string)
            (f : finding),
        location_fails get location -> flagged get f -> location_of f <> location ->
        sent (lambda_handler get publish) <> []).
Proof.
  assert (L : location_fails source_with_broken_table "S").
  { split; [right; now left|]. right.
    exists [legend; no_caption_table], no_caption_table, MissingCaptionError.
    split; [reflexivity|]. split; [now left|reflexivity]. }
  assert (F : forall location,
             known_location location -> String.eqb location "S" = false ->
             flagged source_with_broken_table
               (mkdate 2024 3 5, location,
                [mkForecast 9 (FDec false 215 (-1)) 25 "E" (FDec false 5 (-1))])).
  { intros location Hl Hs. split; [exact Hl|].
    exists [legend; calm_table; stanley_table], stanley_table.
    eexists. unfold source_with_broken_table. rewrite Hs.
    split; [reflexivity|]. split; [right; now left|].
    split; [reflexivity|]. split; [reflexivity|discriminate]. }
  split; [exact L|]. split; [apply F; [now left|reflexivity]|].
  split; [apply F; [right; right; now left|reflexivity]|].
  split; [reflexivity|].
  intros H.
  apply (H source_with_broken_table delivering "S" _ L
           (F "TM" (or_intror (or_intror (or_introl eq_refl))) eq_refl));
    [discriminate|reflexivity].
Qed.

(** C6, amended.  A failure at any location of the registry, its request
    raising or one of its tables after the first not parsing, ends the
    whole run: the handler raises, the notifier is not called whatever the
    other locations hold, and the run stops at the first location that
    fails, the locations after it not being requested. *)
Theorem failure_aborts_run (get : forecast_source) (publish : notifier)
  (location : string) :
  location_fails get location ->
  (exists e, outcome (lambda_handler get publish) = Raise e) /\
  sent (lambda_handler get publish) = [] /\
  exists before first after,
    keys LOCATIONS = (before ++ first :: after)%list /\
    Forall (fun l => ~ location_fails get l) before /\
    location_fails get first /\
    requested (lambda_handler get publish) = (before ++ [first])%list.
Proof.
  intros [Hknown Hfail].
  destruct (lambda_handler_runs get publish)
    as [(before & first & after & e & Hsplit & Hb & Hbad & H)
       |[(Hall & _)|(Hall & _)]].
  - unfold outcome, sent, requested. rewrite H. cbn [fst snd].
    split; [now exists e|]. split.
    + rewrite <- (app_nil_r (map Requested _)). apply sent_of_requests.
    + exists before, first, after. split; [exact Hsplit|]. split; [|split].
      * eapply Forall_impl; [|exact Hb]. intros l Hl [_ Hl']. auto.
      * split; [|exact Hbad]. unfold known_location. rewrite Hsplit.
        apply in_or_app. right. now left.
      * apply requested_of_requests.
  - rewrite Forall_forall in Hall. elim (Hall location Hknown Hfail).
  - rewrite Forall_forall in Hall. elim (Hall location Hknown Hfail).
Qed.

Lemma failure_aborts_run_witness :
  (exists e, outcome (lambda_handler source_with_broken_table delivering) = Raise e) /\
  sent (lambda_handler source_with_broken_table delivering) = [] /\
  exists before first after,
    keys LOCATIONS = (before ++ first :: after)%list /\
    Forall (fun l => ~ location_fails source_with_broken_table l) before /\
    location_fails source_with_broken_table first /\
    requested (lambda_handler source_with_broken_table delivering)
    = (before ++ [first])%list.
Proof.
  apply (failure_aborts_run source_with_broken_table delivering "S").
  split; [right; now left|]. right.
  exists [legend; no_caption_table], no_caption_table, MissingCaptionError.
  split; [reflexivity|]. split; [now left|reflexivity].
Defined.

(** * Further properties of the module *)

(** ** Characters of other scripts *)

(** What [int], [float], [\d] and [strptime] make of digits and spaces
    beyond ASCII, and of the control characters FS..US, which they do not
    skip. *)
Example int_of_str_other_scripts :
  int_of_str "２５" = Some 25 /\ int_of_str "٣٥" = Some 35 /\
  int_of_str "-५" = Some (-5) /\ int_of_str " 9　" = Some 9 /\
  int_of_str "1_２" = Some 12 /\ int_of_str "9€" = None /\
  int_of_str (String "028" "9") = None /\
  int_of_str (String "028" "９") = None.
Proof. repeat split; reflexivity. Qed.

Example float_of_str_other_scripts :
  float_of_str "２.５" = Some (FDec false 25 (-1)) /\
  float_of_str "1E５" = Some (FDec false 1 5) /\
  float_of_str " inf" = Some (FInf false) /\
  float_of_str "1.5é" = None /\
  float_of_str (String "031" "1.5") = None.
Proof. repeat split; reflexivity. Qed.

Example caption_of_other_scripts :
  re_match_forecast_date "Forecast Date: ２０２４-3-5" = Some "２０２４-3-5" /\
  strptime_Ymd "２０２４-3-5" = Some (mkdate 2024 3 5) /\
  strptime_Ymd "2024-12-2५" = Some (mkdate 2024 12 25) /\
  re_match_forecast_date "Forecast Date: 2024-٣-5" = Some "2024-٣-5" /\
  strptime_Ymd "2024-٣-5" = None.
Proof. repeat split; reflexivity. Qed.

Example strftime_of_early_years :
  strftime_Ymda (mkdate 999 1 1) = "999-01-01 (Tue)" /\
  strftime_Ymda (mkdate 5 12 31) = "5-12-31 (Sat)" /\
  zfill 2 "7" = "07" /\ zfill 2 "12" = "12" /\ zfill 4 "5" = "0005".
Proof. repeat split; reflexivity. Qed.

Lemma next_char_shorter (s : string) (cp : N) (char rest : string) :
  next_char s = Some (cp, char, rest) ->
  (String.length rest < String.length s)%nat.
Proof.
  unfold next_char. destruct s as [|b0 r0]; [discriminate|]. cbv zeta.
  repeat match goal with
         | |- (if ?c then _ else _) = _ -> _ => destruct c
         | |- match ?x with _ => _ end = _ -> _ => destruct x
         end;
    try discriminate; intros [= <- <- <-]; simpl; lia.
Qed.

(** One turn for every byte is enough for the loop that brings a text to
    ASCII: more turns change nothing. *)
Lemma to_ascii_from_enough (n m : nat) (s : string) :
  (String.length s <= n)%nat -> (String.length s <= m)%nat ->
  to_ascii_from n s = to_ascii_from m s.
Proof.
  revert m s. induction n as [|n IH]; intros m s Hn Hm.
  - destruct s; [|simpl in Hn; lia]. now destruct m.
  - destruct m as [|m]; [destruct s; [reflexivity|simpl in Hm; lia]|].
    destruct s as [|c s]; [reflexivity|]. cbn [to_ascii_from].
    destruct (next_char (String c s)) as [[[cp char] rest]|] eqn:E; [|reflexivity].
    apply next_char_shorter in E. simpl in E, Hn, Hm.
    rewrite (IH m rest) by lia. reflexivity.
Qed.

(** ** The transposition and the shape of the table *)

Lemma zip_with_cons_count (row : list string) (columns : list (list string)) :
  List.length (zip_with cons row columns)
  = Nat.min (List.length row) (List.length columns).
Proof.
  revert columns. induction row as [|cell row IH]; intros [|column columns];
    simpl; auto.
Qed.

Lemma zip_star_count (rows : list (list string)) :
  List.length (zip_star rows) = shortest rows.
Proof.
  induction rows as [|row rest IH]; [reflexivity|].
  destruct rest as [|row' rest'].
  - simpl. now rewrite length_map.
  - change (zip_star (row :: row' :: rest'))
      with (zip_with cons row (zip_star (row' :: rest'))).
    rewrite zip_with_cons_count, IH. reflexivity.
Qed.

Lemma zip_with_cons_firstn (n : nat) (row : list string) (columns : list (list string)) :
  zip_with cons (firstn n row) (firstn n columns)
  = firstn n (zip_with cons row columns).
Proof.
  revert row columns. induction n as [|n IH]; intros row columns; [reflexivity|].
  destruct row as [|cell row]; [reflexivity|].
  destruct columns as [|column columns]; [reflexivity|].
  simpl. now rewrite IH.
Qed.

(** Cutting every row after [n] cells cuts the transposition after [n]
    tuples. *)
Lemma zip_star_firstn (n : nat) (rows : list (list string)) :
  zip_star (map (firstn n) rows) = firstn n (zip_star rows).
Proof.
  induction rows as [|row rest IH]; [now rewrite firstn_nil|].
  destruct rest as [|row' rest'].
  - simpl. now rewrite firstn_map.
  - change (zip_star (map (firstn n) (row :: row' :: rest')))
      with (zip_with cons (firstn n row) (zip_star (map (firstn n) (row' :: rest')))).
    rewrite IH.
    change (zip_star (row :: row' :: rest'))
      with (zip_with cons row (zip_star (row' :: rest'))).
    apply zip_with_cons_firstn.
Qed.

Lemma shortest_zero (rows : list (list string)) :
  shortest rows = O <-> rows = [] \/ In [] rows.
Proof.
  induction rows as [|row rest IH]; [simpl; tauto|].
  destruct rest as [|row' rest'].
  - simpl. rewrite length_zero_iff_nil. split.
    + intros ->. right. now left.
    + intros [H|[H|[]]]; [discriminate|now subst].
  - change (shortest (row :: row' :: rest'))
      with (Nat.min (List.length row) (shortest (row' :: rest'))).
    split.
    + intros H. right.
      destruct (List.length row) eqn:El.
      * apply length_zero_iff_nil in El. subst. now left.
      * destruct (shortest (row' :: rest')) eqn:Es; [|simpl in H; discriminate].
        destruct IH as [IH _]. destruct (IH eq_refl) as [E|E]; [discriminate|].
        now right.
    + intros [H|[H|H]]; [discriminate| |].
      * subst. reflexivity.
      * destruct IH as [_ IH]. rewrite IH by now right. apply Nat.min_0_r.
Qed.

(** What a successful parse says about the caption, the header and the
    columns. *)
Lemma parse_ok_inv (table : Element) (d : date) (records : list ThreeHourForecast) :
  parse_forecast_table table = Ok (d, records) ->
  forecast_date_of table = Ok d /\
  exists columns,
    zip_star (tr table) = EXPECTED_DIMENSIONS :: columns /\
    mapM unpack_forecast columns = Ok records.
Proof.
  unfold parse_forecast_table.
  destruct (forecast_date_of table) as [d'|e]; simpl; [|discriminate].
  destruct (zip_star (tr table)) as [|header columns]; [discriminate|].
  destruct (tuple_eqb header EXPECTED_DIMENSIONS) eqn:E; simpl; [|discriminate].
  apply tuple_eqb_eq in E. subst header.
  destruct (mapM unpack_forecast columns) as [recs|e] eqn:Hm; simpl; [|discriminate].
  intros [= <- <-]. split; [reflexivity|]. exists columns. now split.
Qed.

Lemma unpack_forecast_raise (column : list string) (e : exn) :
  List.length column = 5%nat -> unpack_forecast column = Raise e ->
  exists target literal,
    e = FieldParseError target literal /\
    conversion_fails target literal /\ In literal column.
Proof.
  intros H5 Hr.
  destruct (unpack_forecast_five column H5) as (h & t & w & wd & rf & -> & Hu).
  rewrite Hu in Hr. now apply from_strings_raise.
Qed.

(** X1. Every way [parse_forecast_table] ends: it returns a date and
    records, or raises for a missing caption, for a caption that gives no
    date, for an empty transposition, for a header column that is not the
    expected one, or for a cell after the header that does not convert.
    The unpacking of a column into five names never fails. *)
Theorem parse_forecast_table_outcomes (table : Element) :
  ((exists d records, parse_forecast_table table = Ok (d, records)) \/
   (caption table = None /\
    parse_forecast_table table = Raise MissingCaptionError) \/
   (exists text, caption table = Some text /\
      parse_forecast_table table = Raise (DateFormatError text)) \/
   (zip_star (tr table) = [] /\
    parse_forecast_table table = Raise IndexError) \/
   (exists header, hd_error (zip_star (tr table)) = Some header /\
      header <> EXPECTED_DIMENSIONS /\
      parse_forecast_table table = Raise (TableShapeError header)) \/
   (exists target literal,
      conversion_fails target literal /\
      In literal (List.concat (tl (zip_star (tr table)))) /\
      parse_forecast_table table = Raise (FieldParseError target literal))) /\
  forall got, parse_forecast_table table <> Raise (UnpackError got).
Proof.
  assert (C : (exists d records, parse_forecast_table table = Ok (d, records)) \/
   (caption table = None /\
    parse_forecast_table table = Raise MissingCaptionError) \/
   (exists text, caption table = Some text /\
      parse_forecast_table table = Raise (DateFormatError text)) \/
   (zip_star (tr table) = [] /\
    parse_forecast_table table = Raise IndexError) \/
   (exists header, hd_error (zip_star (tr table)) = Some header /\
      header <> EXPECTED_DIMENSIONS /\
      parse_forecast_table table = Raise (TableShapeError header)) \/
   (exists target literal,
      conversion_fails target literal /\
      In literal (List.concat (tl (zip_star (tr table)))) /\
      parse_forecast_table table = Raise (FieldParseError target literal))).
  { destruct (forecast_date_of table) as [d|e] eqn:Hd.
    - destruct (zip_star (tr table)) as [|header columns] eqn:Hz.
      + right. right. right. left. split; [reflexivity|].
        unfold parse_forecast_table. now rewrite Hd, Hz.
      + rewrite (parse_after_caption table d header columns Hd Hz).
        destruct (tuple_eqb header EXPECTED_DIMENSIONS) eqn:E; simpl.
        * apply tuple_eqb_eq in E. subst header.
          destruct (columns_have_five_cells _ _ Hz) as [_ Hfive].
          destruct (mapM_total unpack_forecast columns)
            as [(recs & ->)|(column & e & Hin & Hraise & ->)]; simpl.
          -- left. now exists d, recs.
          -- do 5 right. rewrite Forall_forall in Hfive.
             destruct (unpack_forecast_raise column e (Hfive column Hin) Hraise)
               as (target & literal & -> & Hf & Hl).
             exists target, literal. repeat split; auto.
             apply in_concat. eauto.
        * do 4 right. left. exists header. repeat split.
          intros ->. now rewrite (proj2 (tuple_eqb_eq _ _) eq_refl) in E.
    - unfold parse_forecast_table. rewrite Hd. simpl.
      unfold forecast_date_of in Hd.
      destruct (caption table) as [text|]; simpl in Hd.
      + right. right. left. exists text. split; [reflexivity|].
        destruct (re_match_forecast_date text) as [g|]; [|congruence].
        destruct (strptime_Ymd g); [discriminate|congruence].
      + right. left. split; [reflexivity|congruence]. }
  split; [exact C|]. intros got H.
  destruct C as [(d & r & E)|[(_ & E)|[(c & _ & E)|[(_ & E)|[(h & _ & _ & E)|(t & l & _ & _ & E)]]]]];
    rewrite E in H; discriminate.
Qed.

(** X2. Cells beyond the length of the shortest row are never read: the
    parser gives the same result on the table with every row cut after [n]
    cells, for any [n] that is at least the length of the shortest row. *)
Theorem cells_past_shortest_row_are_ignored (table : Element) (n : nat) :
  (shortest (tr table) <= n)%nat ->
  parse_forecast_table (cut_rows n table) = parse_forecast_table table.
Proof.
  intros Hn. unfold parse_forecast_table, cut_rows, forecast_date_of. simpl.
  rewrite zip_star_firstn, firstn_all2; [reflexivity|].
  now rewrite zip_star_count.
Qed.

Lemma cells_past_shortest_row_are_ignored_witness :
  parse_forecast_table stanley_table = parse_forecast_table ragged_table.
Proof.
  apply (cells_past_shortest_row_are_ignored ragged_table 4).
  simpl. lia.
Defined.

(** X3. A parse that succeeds had exactly five rows, and returns one
    record for every cell of the shortest row but the first. *)
Theorem parsed_table_shape (table : Element) (d : date)
  (records : list ThreeHourForecast) :
  parse_forecast_table table = Ok (d, records) ->
  List.length (tr table) = 5%nat /\
  S (List.length records) = shortest (tr table).
Proof.
  intros H. destruct (parse_ok_inv table d records H) as (_ & columns & Hz & Hm).
  split; [apply (columns_have_five_cells _ _ Hz)|].
  rewrite <- zip_star_count, Hz. simpl. f_equal.
  apply mapM_ok in Hm. symmetry. eapply Forall2_length. exact Hm.
Qed.

Lemma parsed_table_shape_witness :
  List.length (tr ragged_table) = 5%nat /\ 4%nat = shortest (tr ragged_table).
Proof.
  apply (parsed_table_shape ragged_table (mkdate 2024 3 5)
           [ mkForecast 8 (FDec false 20 0) 15 "E" (FDec false 0 0);
             mkForecast 9 (FDec false 215 (-1)) 25 "E" (FDec false 5 (-1));
             mkForecast 17 (FDec false 19 0) 30 "NE" (FDec false 0 0) ]).
  reflexivity.
Defined.

(** X4. When the caption gives a date, the parser raises the index error
    exactly when the table has no row or has a row without cells. *)
Theorem index_error_iff_no_cell (table : Element) (d : date) :
  forecast_date_of table = Ok d ->
  (parse_forecast_table table = Raise IndexError
   <-> tr table = [] \/ In [] (tr table)).
Proof.
  intros Hd. rewrite <- shortest_zero, <- zip_star_count, length_zero_iff_nil.
  split.
  - intros H. destruct (zip_star (tr table)) as [|header columns] eqn:Hz; [reflexivity|].
    rewrite (parse_after_caption table d header columns Hd Hz) in H.
    destruct (tuple_eqb header EXPECTED_DIMENSIONS) eqn:E; simpl in H; [|discriminate].
    apply tuple_eqb_eq in E. subst header.
    destruct (columns_have_five_cells _ _ Hz) as [_ Hfive].
    destruct (mapM_total unpack_forecast columns)
      as [(recs & Hm)|(column & e & Hin & Hraise & Hm)];
      rewrite Hm in H; simpl in H; [discriminate|].
    rewrite Forall_forall in Hfive.
    destruct (unpack_forecast_raise column e (Hfive column Hin) Hraise)
      as (target & literal & -> & _). discriminate.
  - intros Hz. unfold parse_forecast_table. now rewrite Hd, Hz.
Qed.

Lemma index_error_iff_no_cell_witness :
  parse_forecast_table table_with_empty_row = Raise IndexError.
Proof.
  apply (index_error_iff_no_cell table_with_empty_row (mkdate 2024 3 5) eq_refl).
  right. simpl. right. now left.
Defined.

Lemma zip_with_cons_nth (row : list string) (columns : list (list string))
  (i : nat) (column : list string) :
  nth_error (zip_with cons row columns) i = Some column ->
  exists cell rest,
    column = cell :: rest /\ nth_error row i = Some cell /\
    nth_error columns i = Some rest.
Proof.
  revert columns i. induction row as [|c row IH]; intros columns i; simpl.
  - destruct i; discriminate.
  - destruct columns as [|col columns]; [destruct i; discriminate|].
    destruct i as [|i]; simpl.
    + intros [= <-]. now exists c, col.
    + apply IH.
Qed.

(** The i-th tuple of the transposition holds the i-th cell of each row,
    row by row. *)
Lemma zip_star_nth (rows : list (list string)) (i : nat) (column : list string) :
  nth_error (zip_star rows) i = Some column ->
  Forall2 (fun row cell => nth_error row i = Some cell) rows column.
Proof.
  revert column. induction rows as [|row rest IH]; intros column.
  - destruct i; discriminate.
  - destruct rest as [|row' rest'].
    + simpl. rewrite nth_error_map.
      destruct (nth_error row i) as [cell|] eqn:E; simpl; [|discriminate].
      intros [= <-]. repeat constructor. exact E.
    + change (zip_star (row :: row' :: rest'))
        with (zip_with cons row (zip_star (row' :: rest'))).
      intros H. apply zip_with_cons_nth in H.
      destruct H as (cell & col' & -> & Hc & Hr). constructor; auto.
Qed.

Lemma Forall2_nth_right {A B : Type} (P : A -> B -> Prop) (xs : list A) (ys : list B)
  (j : nat) (y : B) :
  Forall2 P xs ys -> nth_error ys j = Some y ->
  exists x, nth_error xs j = Some x /\ P x y.
Proof.
  intros H. revert j. induction H as [|x0 y0 xs ys Hp _ IH]; intros j.
  - destruct j; discriminate.
  - destruct j as [|j]; simpl.
    + intros [= <-]. now exists x0.
    + apply IH.
Qed.

Lemma unpack_forecast_ok (column : list string) (r : ThreeHourForecast) :
  unpack_forecast column = Ok r -> converted column r.
Proof.
  destruct column as [|h [|t [|w [|wd [|rf [|x column]]]]]]; simpl; try discriminate.
  apply from_strings_ok.
Qed.

(** X5. The rows of a table that parses are, in this order, the hours, the
    temperatures, the wind speeds, the wind directions and the rainfalls,
    and the record at place [j] is made of the cells at place [j + 1] of
    the five rows: the first cell of a row is its header. *)
Theorem records_follow_rows (table : Element) (d : date)
  (records : list ThreeHourForecast) :
  parse_forecast_table table = Ok (d, records) ->
  exists hours temperatures speeds directions rainfalls,
    tr table = [hours; temperatures; speeds; directions; rainfalls] /\
    forall (j : nat) (r : ThreeHourForecast),
      nth_error records j = Some r ->
      exists h t w wd rf,
        nth_error hours (S j) = Some h /\
        nth_error temperatures (S j) = Some t /\
        nth_error speeds (S j) = Some w /\
        nth_error directions (S j) = Some wd /\
        nth_error rainfalls (S j) = Some rf /\
        converted [h; t; w; wd; rf] r.
Proof.
  intros H. destruct (parse_ok_inv table d records H) as (_ & columns & Hz & Hm).
  destruct (columns_have_five_cells _ _ Hz) as [H5 _].
  destruct (tr table) as [|r0 [|r1 [|r2 [|r3 [|r4 [|r5 rows]]]]]] eqn:Hrows;
    try discriminate.
  exists r0, r1, r2, r3, r4. split; [reflexivity|].
  intros j r Hj. apply mapM_ok in Hm.
  destruct (Forall2_nth_right _ _ _ j r Hm Hj) as (column & Hc & Hu).
  apply unpack_forecast_ok in Hu.
  assert (Hn : nth_error (zip_star [r0; r1; r2; r3; r4]) (S j) = Some column)
    by now rewrite Hz.
  apply zip_star_nth in Hn.
  destruct Hu as (h & t & w & wd & rf & -> & Hconv).
  inversion Hn as [|? ? ? ? Hh Hn1]; subst.
  inversion Hn1 as [|? ? ? ? Ht Hn2]; subst.
  inversion Hn2 as [|? ? ? ? Hw Hn3]; subst.
  inversion Hn3 as [|? ? ? ? Hwd Hn4]; subst.
  inversion Hn4 as [|? ? ? ? Hrf Hn5]; subst.
  exists h, t, w, wd, rf. repeat split; try assumption.
  exists h, t, w, wd, rf. split; [reflexivity|assumption].
Qed.

Lemma records_follow_rows_witness :
  exists hours temperatures speeds directions rainfalls,
    tr ragged_table = [hours; temperatures; speeds; directions; rainfalls] /\
    forall (j : nat) (r : ThreeHourForecast),
      nth_error
        [ mkForecast 8 (FDec false 20 0) 15 "E" (FDec false 0 0);
          mkForecast 9 (FDec false 215 (-1)) 25 "E" (FDec false 5 (-1));
          mkForecast 17 (FDec false 19 0) 30 "NE" (FDec false 0 0) ] j = Some r ->
      exists h t w wd rf,
        nth_error hours (S j) = Some h /\
        nth_error temperatures (S j) = Some t /\
        nth_error speeds (S j) = Some w /\
        nth_error directions (S j) = Some wd /\
        nth_error rainfalls (S j) = Some rf /\
        converted [h; t; w; wd; rf] r.
Proof.
  apply (records_follow_rows ragged_table (mkdate 2024 3 5)).
  reflexivity.
Defined.




(** ** The caption and the date *)












(** ** The aggregate *)

Section DictOrder.
Context {K V : Type} (eqb : K -> K -> bool).
Hypothesis eqb_eq : forall a b, eqb a b = true <-> a = b.

Lemma eqb_other (a b : K) : a <> b -> eqb a b = false.
Proof.
  intros H. destruct (eqb a b) eqn:E; [|reflexivity].
  apply eqb_eq in E. contradiction.
Qed.

Lemma dict_set_fresh (d : dict (K := K) (V := V)) (k : K) (v : V) :
  ~ In k (keys d) -> dict_set eqb d k v = (d ++ [(k, v)])%list.
Proof.
  unfold keys. induction d as [|[k0 v0] d IH]; simpl; intros H; [reflexivity|].
  rewrite eqb_other by (intros ->; auto). rewrite IH by auto. reflexivity.
Qed.

Lemma dict_set_last (d : dict (K := K) (V := V)) (k : K) (v0 v : V) :
  ~ In k (keys d) ->
  dict_set eqb (d ++ [(k, v0)])%list k v = (d ++ [(k, v)])%list.
Proof.
  unfold keys. induction d as [|[k1 v1] d IH]; simpl; intros H.
  - now rewrite (proj2 (eqb_eq k k) eq_refl).
  - rewrite eqb_other by (intros ->; auto). rewrite IH by auto. reflexivity.
Qed.

Lemma dict_get_last (d : dict (K := K) (V := V)) (k : K) (v : V) :
  ~ In k (keys d) -> dict_get eqb (d ++ [(k, v)])%list k = Some v.
Proof.
  unfold keys. induction d as [|[k1 v1] d IH]; simpl; intros H.
  - now rewrite (proj2 (eqb_eq k k) eq_refl).
  - rewrite eqb_other by (intros ->; auto). apply IH. auto.
Qed.

Lemma dict_get_of_in (d : dict (K := K) (V := V)) (k : K) (v : V) :
  NoDup (keys d) -> In (k, v) d -> dict_get eqb d k = Some v.
Proof.
  unfold keys. induction d as [|[k0 v0] d IH]; simpl; intros Hn Hin; [destruct Hin|].
  inversion Hn as [|? ? Hnot Hn']; subst.
  destruct Hin as [[= -> ->]|Hin].
  - now rewrite (proj2 (eqb_eq k k) eq_refl).
  - rewrite eqb_other; [now apply IH|].
    intros ->. apply Hnot. apply in_map_iff. now exists (k0, v).
Qed.

Lemma dict_set_nonempty (d : dict (K := K) (V := V)) (k : K) (v : V) :
  dict_set eqb d k v <> [].
Proof.
  destruct d as [|[k0 v0] d]; simpl; [discriminate|].
  destruct (eqb k k0); discriminate.
Qed.

Lemma dict_set_length (d : dict (K := K) (V := V)) (k : K) (v : V) :
  (List.length (dict_set eqb d k v) <= S (List.length d))%nat.
Proof.
  induction d as [|[k0 v0] d IH]; simpl; [lia|].
  destruct (eqb k k0); simpl; lia.
Qed.
End DictOrder.

Lemma in_entries (agg : aggregate) (d : date) (location : string)
  (forecasts : list ThreeHourForecast) :
  In (d, location, forecasts) (entries agg)
  <-> exists locations, In (d, locations) agg /\ In (location, forecasts) locations.
Proof.
  unfold entries. rewrite in_flat_map. split.
  - intros ([d' locations] & Hin & H). simpl in H. apply in_map_iff in H.
    destruct H as ([l fs] & [= <- <- <-] & Hl). now exists locations.
  - intros (locations & Hin & Hl). exists (d, locations). split; [exact Hin|].
    simpl. apply in_map_iff. now exists (location, forecasts).
Qed.

(** In an aggregate without a repeated key, the entries are what the
    lookups give. *)
Lemma in_entries_lookup (agg : aggregate) (d : date) (location : string)
  (forecasts : list ThreeHourForecast) :
  well_keyed agg ->
  (In (d, location, forecasts) (entries agg)
   <-> aggregate_get agg d location = Some forecasts).
Proof.
  intros [Hk Hv]. rewrite in_entries. unfold aggregate_get. split.
  - intros (locations & Hin & Hl).
    rewrite (dict_get_of_in date_eqb date_eqb_eq agg d locations Hk Hin).
    apply (dict_get_of_in String.eqb String.eqb_eq); [|exact Hl].
    rewrite Forall_forall in Hv. apply (Hv _ Hin).
  - destruct (dict_get date_eqb agg d) as [locations|] eqn:E; [|discriminate].
    intros H. exists locations. split.
    + now apply (dict_get_in date_eqb date_eqb_eq).
    + now apply (dict_get_in String.eqb String.eqb_eq).
Qed.

Lemma last_finding_in (date_locations : list finding) (d : date) (location : string)
  (forecasts : list ThreeHourForecast) :
  last_finding date_locations d location = Some forecasts ->
  In (d, location, forecasts) date_locations.
Proof.
  induction date_locations as [|[[d' location'] fs] rest IH]; simpl; [discriminate|].
  destruct (last_finding rest d location) as [later|].
  - intros [= ->]. right. now apply IH.
  - destruct (date_eqb d d' && String.eqb location location') eqn:E; [|discriminate].
    apply andb_true_iff in E. destruct E as [Ed El].
    apply date_eqb_eq in Ed. apply String.eqb_eq in El. subst.
    intros [= ->]. now left.
Qed.

Lemma last_finding_some (date_locations : list finding) (d : date) (location : string)
  (forecasts : list ThreeHourForecast) :
  In (d, location, forecasts) date_locations ->
  exists kept, last_finding date_locations d location = Some kept.
Proof.
  induction date_locations as [|[[d' location'] fs] rest IH]; simpl; [intros []|].
  intros [[= -> -> ->]|Hin].
  - destruct (last_finding rest d location) as [later|]; [now exists later|].
    rewrite (proj2 (date_eqb_eq d d) eq_refl), String.eqb_refl. now exists forecasts.
  - destruct (IH Hin) as (kept & ->). now exists kept.
Qed.

Lemma group_step_no_empty_date (agg : aggregate) (f : finding) :
  Forall (fun item => snd item <> []) agg ->
  Forall (fun item => snd item <> []) (group_step agg f).
Proof.
  destruct f as [[d location] forecasts]. intros H. unfold group_step.
  apply (dict_set_Forall date_eqb date_eqb_eq); [exact H|]. simpl.
  apply dict_set_nonempty.
Qed.

Lemma group_no_empty_date (date_locations : list finding) :
  Forall (fun item => snd item <> []) (group_by_date_location date_locations).
Proof.
  unfold group_by_date_location.
  assert (G : forall agg, Forall (fun item : date * locations_dict => snd item <> []) agg ->
                Forall (fun item => snd item <> [])
                  (fold_left group_step date_locations agg)).
  { induction date_locations as [|f rest IH]; intros agg H; cbn [fold_left];
      [exact H|]. apply IH. now apply group_step_no_empty_date. }
  apply G. constructor.
Qed.

Lemma entries_cons_length (d : date) (locations : locations_dict) (agg : aggregate) :
  List.length (entries ((d, locations) :: agg))
  = (List.length locations + List.length (entries agg))%nat.
Proof. unfold entries. simpl. now rewrite length_app, length_map. Qed.

Lemma group_step_entries_length (agg : aggregate) (f : finding) :
  (List.length (entries (group_step agg f)) <= S (List.length (entries agg)))%nat.
Proof.
  destruct f as [[d location] forecasts]. unfold group_step.
  induction agg as [|[d0 locations0] agg IH]; cbn [dict_get dict_set].
  - reflexivity.
  - destruct (date_eqb d d0) eqn:E.
    + rewrite !entries_cons_length.
      pose proof (dict_set_length String.eqb locations0 location forecasts). lia.
    + rewrite !entries_cons_length. lia.
Qed.

Lemma fold_entries_length (date_locations : list finding) (agg : aggregate) :
  (List.length (entries (fold_left group_step date_locations agg))
   <= List.length date_locations + List.length (entries agg))%nat.
Proof.
  revert agg. induction date_locations as [|f rest IH]; intros agg; cbn [fold_left].
  - simpl. lia.
  - specialize (IH (group_step agg f)).
    pose proof (group_step_entries_length agg f). simpl. lia.
Qed.

Lemma group_lookup (date_locations : list finding) (d : date) (location : string) :
  aggregate_get (group_by_date_location date_locations) d location
  = last_finding date_locations d location.
Proof.
  unfold group_by_date_location. rewrite aggregate_get_fold.
  now destruct (last_finding date_locations d location).
Qed.

Lemma group_well_keyed (date_locations : list finding) :
  well_keyed (group_by_date_location date_locations).
Proof. apply fold_group_step_well_keyed. split; constructor. Qed.

Lemma entries_sound (date_locations : list finding) (f : finding) :
  In f (entries (group_by_date_location date_locations)) -> In f date_locations.
Proof.
  destruct f as [[d location] forecasts]. intros Hin.
  apply (in_entries_lookup _ _ _ _ (group_well_keyed date_locations)) in Hin.
  rewrite group_lookup in Hin. now apply last_finding_in.
Qed.

Lemma entries_complete (date_locations : list finding) (f : finding) :
  In f date_locations ->
  exists kept,
    In (date_of f, location_of f, kept)
       (entries (group_by_date_location date_locations)).
Proof.
  destruct f as [[d location] forecasts]. intros Hin.
  destruct (last_finding_some _ _ _ _ Hin) as (kept & Hk).
  exists kept. apply (in_entries_lookup _ _ _ _ (group_well_keyed date_locations)).
  now rewrite group_lookup.
Qed.

(** X8. The aggregate holds the findings of the input that no later
    finding of the same date and location overwrote, and nothing else:
    each of its entries is a finding of the input, every (date, location)
    pair of the input has an entry, no date is left without a location,
    and there are at most as many entries as findings. *)
Theorem aggregate_entries_are_findings (date_locations : list finding) :
  (forall f, In f (entries (group_by_date_location date_locations)) ->
             In f date_locations) /\
  (forall f, In f date_locations ->
             exists kept,
               In (date_of f, location_of f, kept)
                  (entries (group_by_date_location date_locations))) /\
  Forall (fun item => snd item <> []) (group_by_date_location date_locations) /\
  (List.length (entries (group_by_date_location date_locations))
   <= List.length date_locations)%nat.
Proof.
  split; [|split; [|split]].
  - apply entries_sound.
  - apply entries_complete.
  - apply group_no_empty_date.
  - pose proof (fold_entries_length date_locations []) as G.
    unfold group_by_date_location. simpl in G. lia.
Qed.

Lemma group_step_new_date (acc : aggregate) (d : date) (location : string)
  (forecasts : list ThreeHourForecast) :
  ~ In d (keys acc) ->
  group_step acc (d, location, forecasts)
  = (acc ++ [(d, [(location, forecasts)])])%list.
Proof.
  intros Hd. unfold group_step.
  rewrite (proj2 (dict_get_none date_eqb date_eqb_eq acc d) Hd).
  now rewrite (dict_set_fresh date_eqb date_eqb_eq acc d _ Hd).
Qed.

Lemma group_step_last_date (acc : aggregate) (d : date) (done : locations_dict)
  (location : string) (forecasts : list ThreeHourForecast) :
  ~ In d (keys acc) -> ~ In location (keys done) ->
  group_step (acc ++ [(d, done)])%list (d, location, forecasts)
  = (acc ++ [(d, (done ++ [(location, forecasts)])%list)])%list.
Proof.
  intros Hd Hl. unfold group_step.
  rewrite (dict_get_last date_eqb date_eqb_eq acc d done Hd).
  rewrite (dict_set_last date_eqb date_eqb_eq acc d done _ Hd).
  now rewrite (dict_set_fresh String.eqb String.eqb_eq done location forecasts Hl).
Qed.

Lemma fold_left_entries_of_item (acc : aggregate) (d : date)
  (done locations : locations_dict) :
  ~ In d (keys acc) ->
  NoDup (keys (done ++ locations)%list) ->
  fold_left group_step
    (map (fun entry : string * list ThreeHourForecast => (d, fst entry, snd entry))
       locations)
    (acc ++ [(d, done)])%list
  = (acc ++ [(d, (done ++ locations)%list)])%list.
Proof.
  intros Hd. revert done. induction locations as [|[l fs] locations IH];
    intros done Hn; cbn [map fold_left fst snd].
  - now rewrite app_nil_r.
  - rewrite (group_step_last_date acc d done l fs Hd).
    + rewrite IH; rewrite <- app_assoc; [reflexivity|exact Hn].
    + unfold keys in *. rewrite map_app in Hn. simpl in Hn.
      apply NoDup_remove_2 in Hn. intros H. apply Hn. apply in_or_app. now left.
Qed.

(** Grouping the entries of an aggregate, after what is already grouped,
    puts the aggregate back. *)
Lemma fold_left_entries (agg acc : aggregate) :
  NoDup (keys (acc ++ agg)%list) ->
  Forall (fun item => NoDup (keys (snd item))) agg ->
  Forall (fun item => snd item <> []) agg ->
  fold_left group_step (entries agg) acc = (acc ++ agg)%list.
Proof.
  revert acc. induction agg as [|[d locations] agg IH]; intros acc Hk Hv Hne.
  - simpl. now rewrite app_nil_r.
  - inversion Hv as [|? ? Hvl Hv']; subst. inversion Hne as [|? ? Hnl Hne']; subst.
    simpl in Hvl, Hnl.
    assert (Hd : ~ In d (keys acc)).
    { unfold keys in *. rewrite map_app in Hk. simpl in Hk.
      apply NoDup_remove_2 in Hk. intros H. apply Hk. apply in_or_app. now left. }
    change (entries ((d, locations) :: agg))
      with (map (fun entry : string * list ThreeHourForecast =>
                   (d, fst entry, snd entry)) locations ++ entries agg)%list.
    rewrite fold_left_app.
    destruct locations as [|[l fs] locations]; [congruence|].
    cbn [map fold_left fst snd].
    rewrite (group_step_new_date acc d l fs Hd).
    transitivity
      (fold_left group_step (entries agg) (acc ++ [(d, (l, fs) :: locations)])%list).
    { apply (f_equal (fold_left group_step (entries agg))).
      apply (fold_left_entries_of_item acc d [(l, fs)] locations Hd Hvl). }
    rewrite IH; [now rewrite <- app_assoc| |assumption|assumption].
    now rewrite <- app_assoc.
Qed.

(** X9. Grouping is idempotent: the entries of an aggregate, grouped
    again, give the same aggregate, dates and locations in the same
    order. *)
Theorem regrouping_rebuilds_the_aggregate (date_locations : list finding) :
  group_by_date_location (entries (group_by_date_location date_locations))
  = group_by_date_location date_locations.
Proof.
  destruct (fold_group_step_well_keyed date_locations []) as [Hk Hv];
    [split; constructor|].
  unfold group_by_date_location at 1.
  apply (fold_left_entries (group_by_date_location date_locations) []).
  - exact Hk.
  - exact Hv.
  - apply group_no_empty_date.
Qed.

(** ** The alert and unknown location codes *)

Lemma foldM_all_ok {A S : Type} (body : S -> A -> result S) (xs : list A) :
  (forall x, In x xs -> forall s, exists s', body s x = Ok s') ->
  forall s, exists s', foldM body xs s = Ok s'.
Proof.
  induction xs as [|a xs IH]; intros H s; simpl; [eauto|].
  destruct (H a (or_introl eq_refl) s) as (s' & ->). simpl.
  apply IH. intros x Hx. apply H. now right.
Qed.

Lemma mapM_all_ok {A B : Type} (f : A -> result B) (xs : list A) :
  (forall x, In x xs -> exists y, f x = Ok y) -> exists ys, mapM f xs = Ok ys.
Proof.
  induction xs as [|a xs IH]; simpl; intros H.
  - now exists [].
  - destruct (H a) as (b & ->); [auto|].
    destruct IH as (bs & ->); [auto|]. simpl. now exists (b :: bs).
Qed.

Lemma LOCATIONS_getitem_raise (location : string) (e : exn) :
  LOCATIONS_getitem location = Raise e ->
  e = KeyError location /\ ~ known_location location.
Proof.
  unfold LOCATIONS_getitem, known_location.
  destruct (dict_get String.eqb LOCATIONS location) eqn:E; [discriminate|].
  intros [= <-]. split; [reflexivity|].
  now apply (dict_get_none String.eqb String.eqb_eq).
Qed.

Lemma date_summary_entry_raise (item : date * locations_dict) (e : exn) :
  date_summary_entry item = Raise e ->
  exists location,
    In location (keys (snd item)) /\ ~ known_location location /\
    e = KeyError location.
Proof.
  destruct item as [d locations]. unfold date_summary_entry.
  destruct (mapM_total (fun '(location, _) => LOCATIONS_getitem location) locations)
    as [(names & ->)|([l fs] & e' & Hin & Hraise & ->)]; simpl; [discriminate|].
  intros [= <-]. apply LOCATIONS_getitem_raise in Hraise. destruct Hraise as [-> Hn].
  exists l. repeat split; [|assumption].
  unfold keys. apply in_map_iff. now exists (l, fs).
Qed.

Lemma date_summary_entry_ok (item : date * locations_dict) :
  Forall known_location (keys (snd item)) ->
  exists text, date_summary_entry item = Ok text.
Proof.
  destruct item as [d locations]. simpl. intros Hk. unfold date_summary_entry.
  destruct (mapM_all_ok (fun '(location, _) => LOCATIONS_getitem location) locations)
    as (names & ->); [|simpl; eauto].
  intros [l fs] Hin. rewrite Forall_forall in Hk.
  rewrite LOCATIONS_getitem_known; [eauto|].
  apply Hk. unfold keys. apply in_map_iff. now exists (l, fs).
Qed.

Lemma body_date_ok (item : date * locations_dict) (message_body : string) :
  Forall known_location (keys (snd item)) ->
  exists text, body_date message_body item = Ok text.
Proof.
  destruct item as [d locations]. simpl. intros Hk. unfold body_date.
  apply foldM_all_ok. intros [l fs] Hin s. unfold body_location.
  rewrite Forall_forall in Hk. rewrite LOCATIONS_getitem_known; [simpl; eauto|].
  apply Hk. unfold keys. apply in_map_iff. now exists (l, fs).
Qed.

(** The location codes of an aggregate are codes of the findings. *)
Lemma aggregate_codes (date_locations : list finding) (item : date * locations_dict)
  (location : string) :
  In item (group_by_date_location date_locations) ->
  In location (keys (snd item)) ->
  exists f, In f date_locations /\ location_of f = location.
Proof.
  destruct item as [d locations]. simpl. intros Hitem Hin.
  unfold keys in Hin. apply in_map_iff in Hin. destruct Hin as ([l fs] & <- & Hl).
  exists (d, l, fs). split; [|reflexivity].
  apply entries_sound. apply in_entries. now exists locations.
Qed.

(** X10. [generate_alert] returns a subject and a body exactly when every
    finding carries a code of the registry; otherwise it raises the key
    error of a code of the findings that the registry does not have, and
    no text is produced. *)
Theorem generate_alert_needs_known_codes (date_locations : list finding) :
  ((exists subject body, generate_alert date_locations = Ok (subject, body))
   <-> Forall (fun f => known_location (location_of f)) date_locations) /\
  (forall e, generate_alert date_locations = Raise e ->
     exists f, In f date_locations /\ ~ known_location (location_of f) /\
               e = KeyError (location_of f)).
Proof.
  assert (R : forall e, generate_alert date_locations = Raise e ->
     exists f, In f date_locations /\ ~ known_location (location_of f) /\
               e = KeyError (location_of f)).
  { intros e. unfold generate_alert.
    destruct (mapM_total date_summary_entry (group_by_date_location date_locations))
      as [(summaries & Hs)|(item & e' & Hin & Hraise & Hs)]; rewrite Hs; simpl.
    - destruct (foldM body_date (group_by_date_location date_locations) "")
        as [body|e'] eqn:Hb; simpl; [discriminate|].
      intros [= <-]. apply foldM_raise_inv in Hb.
      destruct Hb as ([d locations] & s' & Hin & Hraise).
      unfold body_date in Hraise. apply foldM_raise_inv in Hraise.
      destruct Hraise as ([l fs] & s'' & Hl & Hraise).
      unfold body_location in Hraise.
      destruct (LOCATIONS_getitem l) as [name|e0] eqn:Hg; simpl in Hraise;
        [discriminate|].
      injection Hraise as <-. apply LOCATIONS_getitem_raise in Hg.
      destruct Hg as [-> Hn].
      destruct (aggregate_codes date_locations (d, locations) l Hin) as (f & Hf & <-).
      { unfold keys. apply in_map_iff. now exists (l, fs). }
      now exists f.
    - intros [= <-]. apply date_summary_entry_raise in Hraise.
      destruct Hraise as (l & Hl & Hn & ->).
      destruct (aggregate_codes date_locations item l Hin Hl) as (f & Hf & <-).
      now exists f. }
  split; [|exact R]. split.
  - intros (subject & body & Hok). apply Forall_forall. intros f Hf.
    destruct (in_dec string_dec (location_of f) (keys LOCATIONS)) as [H|H]; [exact H|].
    exfalso.
    destruct (entries_complete date_locations f Hf) as (kept & Hk).
    apply in_entries in Hk. destruct Hk as (locations & Hitem & Hl).
    destruct (mapM_raise date_summary_entry (group_by_date_location date_locations))
      as (item & e & _ & _ & Hm).
    { exists (date_of f, locations).
      destruct (mapM_raise (fun '(location, _) => LOCATIONS_getitem location) locations)
        as ([l fs] & e & _ & _ & Hm).
      { exists (location_of f, kept), (KeyError (location_of f)).
        split; [exact Hl|]. unfold LOCATIONS_getitem.
        now rewrite (proj2 (dict_get_none String.eqb String.eqb_eq LOCATIONS _) H). }
      exists e. split; [exact Hitem|]. unfold date_summary_entry. now rewrite Hm. }
    unfold generate_alert in Hok. rewrite Hm in Hok. discriminate.
  - intros Hall. destruct (generate_alert date_locations) as [[subject body]|e] eqn:E;
      [now exists subject, body|].
    destruct (R e eq_refl) as (f & Hf & Hn & _).
    rewrite Forall_forall in Hall. elim (Hn (Hall f Hf)).
Qed.

Lemma generate_alert_needs_known_codes_witness :
  exists f, In f findings_with_unknown_code /\ ~ known_location (location_of f) /\
            KeyError "KP" = KeyError (location_of f).
Proof.
  apply (proj2 (generate_alert_needs_known_codes findings_with_unknown_code)).
  reflexivity.
Defined.

(** ** The run *)

Lemma for_each_ext {A S : Type} (body body' : S -> A -> traced S) (xs : list A) :
  (forall x, In x xs -> forall s, body s x = body' s x) ->
  forall s, for_each body xs s = for_each body' xs s.
Proof.
  induction xs as [|a xs IH]; intros H s; simpl; [reflexivity|].
  rewrite (H a (or_introl eq_refl) s).
  destruct (body' s a) as [calls [s'|e]]; simpl; [|reflexivity].
  rewrite IH; [reflexivity|]. intros x Hx. apply H. now right.
Qed.

(** X11. The first table of every page is skipped and never parsed: two
    forecast sources whose pages differ at most in their first table give
    the same run, the same requests, the same alert and the same end. *)
Theorem first_table_is_never_read (get get' : forecast_source) (publish : notifier) :
  (forall location, known_location location ->
     same_after_first (get location) (get' location)) ->
  lambda_handler get publish = lambda_handler get' publish.
Proof.
  intros H. unfold lambda_handler.
  rewrite (for_each_ext (check_location get) (check_location get') (keys LOCATIONS));
    [reflexivity|].
  intros location Hl acc. specialize (H location Hl).
  unfold check_location, session_get, same_after_first in *.
  destruct (get location) as [tables|e], (get' location) as [tables'|e'];
    simpl; try contradiction.
  - now rewrite H.
  - now subst.
Qed.

Lemma first_table_is_never_read_witness :
  lambda_handler windy_source_other_first_tables delivering
  = lambda_handler windy_source delivering.
Proof.
  apply (first_table_is_never_read windy_source_other_first_tables windy_source).
  intros location _. unfold windy_source_other_first_tables, windy_source, page.
  destruct (String.eqb location "S"); reflexivity.
Defined.

(** X12. The locations are requested in the order of the registry, each
    at most once: the requests of a run are a first part of the registry,
    the whole of it when no page fails and, when one does, the part that
    ends with the first location whose page fails. *)
Theorem requests_follow_the_registry (get : forecast_source) (publish : notifier) :
  (exists after,
      keys LOCATIONS = (requested (lambda_handler get publish) ++ after)%list) /\
  (all_tables_parse get ->
   requested (lambda_handler get publish) = keys LOCATIONS) /\
  (forall location, location_fails get location ->
     exists before first,
       requested (lambda_handler get publish) = (before ++ [first])%list /\
       location_fails get first /\
       Forall (fun l => ~ location_fails get l) before).
Proof.
  unfold requested.
  destruct (lambda_handler_runs get publish)
    as [(before & first & after & e & Hsplit & Hb & Hbad & H)
       |[(Hall & _ & H)|(Hall & _ & H)]]; rewrite H; cbn [fst].
  - rewrite requested_of_requests. split; [|split].
    + exists after. rewrite <- app_assoc. exact Hsplit.
    + intros Hp. pose proof (all_tables_parse_no_failure get Hp) as Hok.
      rewrite Forall_forall in Hok. elim (Hok first); [|exact Hbad].
      rewrite Hsplit. apply in_or_app. right. now left.
    + intros location _. exists before, first. split; [reflexivity|]. split.
      * split; [|exact Hbad]. unfold known_location. rewrite Hsplit.
        apply in_or_app. right. now left.
      * eapply Forall_impl; [|exact Hb]. intros l Hl [_ Hl']. auto.
  - rewrite requested_of_requests. split; [|split].
    + exists []. now rewrite app_nil_r.
    + reflexivity.
    + intros location [Hk Hf]. rewrite Forall_forall in Hall. elim (Hall _ Hk Hf).
  - assert (E : flat_map
                  (fun call => match call with
                               | Requested l => [l]
                               | Alerted _ _ => []
                               end)
                  (map Requested (keys LOCATIONS)
                     ++ [Alerted (spec_subject (group_by_date_location (all_findings get)))
                           (spec_body (group_by_date_location (all_findings get)))])%list
                = keys LOCATIONS).
    { rewrite flat_map_app, requested_of_requests. reflexivity. }
    rewrite E. split; [|split].
    + exists []. now rewrite app_nil_r.
    + reflexivity.
    + intros location [Hk Hf]. rewrite Forall_forall in Hall. elim (Hall _ Hk Hf).
Qed.

Lemma requests_follow_the_registry_witness :
  requested (lambda_handler windy_source delivering) = ["TMTWSC"; "S"; "TM"].
Proof.
  apply (proj1 (proj2 (requests_follow_the_registry windy_source delivering))).
  exact windy_source_parses.
Defined.

(** X13. When the notifier is called, it is called with the alert that
    [generate_alert] makes of the findings of all the locations, in the
    order of the registry and of the tables; what the notifier answers is
    how the run ends, so an exception of the transport leaves the handler. *)
Theorem alert_is_made_of_all_findings (get : forecast_source) (publish : notifier)
  (message_subject message_body : string) :
  In (message_subject, message_body) (sent (lambda_handler get publish)) ->
  generate_alert (all_findings get) = Ok (message_subject, message_body) /\
  sent (lambda_handler get publish) = [(message_subject, message_body)] /\
  outcome (lambda_handler get publish) = publish message_subject message_body.
Proof.
  intros Hin.
  destruct (lambda_handler_runs get publish)
    as [(before & first & after & e & _ & _ & _ & H)
       |[(_ & _ & H)|(_ & Hne & H)]];
    unfold sent, outcome in *; rewrite H in *; cbn [fst snd] in *.
  - rewrite <- (app_nil_r (map Requested _)), sent_of_requests in Hin. destruct Hin.
  - rewrite <- (app_nil_r (map Requested _)), sent_of_requests in Hin. destruct Hin.
  - rewrite sent_of_requests in *. simpl in Hin. destruct Hin as [[= <- <-]|[]].
    split; [|split; reflexivity].
    apply generate_alert_of_aggregate.
    apply group_by_date_location_well_formed, all_findings_well_formed.
Qed.

Lemma alert_is_made_of_all_findings_witness :
  generate_alert (all_findings windy_source)
  = Ok ("Strong wind forecasted: 05/03 @Stanley",
        "2024-03-05 (Tue)" ++ NL ++ "Stanley" ++ NL ++ TAB ++ "9:00 - 25 km/h" ++ NL) /\
  sent (lambda_handler windy_source failing_notifier)
  = [("Strong wind forecasted: 05/03 @Stanley",
      "2024-03-05 (Tue)" ++ NL ++ "Stanley" ++ NL ++ TAB ++ "9:00 - 25 km/h" ++ NL)] /\
  outcome (lambda_handler windy_source failing_notifier)
  = failing_notifier "Strong wind forecasted: 05/03 @Stanley"
      ("2024-03-05 (Tue)" ++ NL ++ "Stanley" ++ NL ++ TAB ++ "9:00 - 25 km/h" ++ NL).
Proof.
  apply (alert_is_made_of_all_findings windy_source failing_notifier).
  left. reflexivity.
Defined.

(** X14. The findings that the loop of [lambda_handler] over the
    locations returns are sound: each has a code of the registry, the date
    of a table after the first of the page requested for that code, and as
    records the hours of that table, in the table's order, that
    [is_strong] accepts, at least one; every record has a wind speed of 20
    or more at an hour from 9 to 16. *)
Theorem findings_hold_only_strong_records (get : forecast_source)
  (calls : list event) (findings : list finding) :
  for_each (check_location get) (keys LOCATIONS) [] = (calls, Ok findings) ->
  calls = map Requested (keys LOCATIONS) /\
  Forall (found_in_a_table get) findings.
Proof.
  intros Hloop.
  destruct (loop_over_locations get (keys LOCATIONS) [])
    as [[H _]|(before & first & after & e & _ & _ & _ & H)];
    rewrite H in Hloop; [|discriminate].
  injection Hloop as <- <-. split; [reflexivity|].
  change (([] ++ flat_map (location_findings get) (keys LOCATIONS))%list)
    with (all_findings get).
  apply Forall_forall. intros [[d location] strong] Hin.
  apply in_all_findings in Hin.
  destruct Hin as (Hk & tables & table & forecasts & Hget & Ht & Hp & Hs & Hne).
  unfold found_in_a_table. cbn [location_of date_of records_of fst snd].
  split; [exact Hk|]. split; [exact Hne|]. split.
  - subst strong. apply Forall_forall. intros r Hr.
    apply filter_In in Hr. destruct Hr as [_ Hs]. split; [exact Hs|].
    unfold is_strong, HOUR_RANGE, MIN_WIND_SPEED in Hs.
    rewrite !andb_true_iff, !Z.leb_le in Hs. tauto.
  - now exists tables, table, forecasts.
Qed.

Lemma findings_hold_only_strong_records_witness :
  [Requested "TMTWSC"; Requested "S"; Requested "TM"]
  = map Requested (keys LOCATIONS) /\
  Forall (found_in_a_table windy_source)
    [ (mkdate 2024 3 5, "S",
       [mkForecast 9 (FDec false 215 (-1)) 25 "E" (FDec false 5 (-1))]) ].
Proof.
  apply (findings_hold_only_strong_records windy_source).
  reflexivity.
Defined.

(** ** Printing and reading integers *)

Lemma digitpart_tail_of_uint (d : Decimal.uint) (p : positive) (n : nat) :
  exists n',
    digitpart_tail (Z.pos p) n (NilEmpty.string_of_uint d)
    = (Z.pos (Pos.of_uint_acc d p), n', "").
Proof.
  revert p n.
  induction d as [|d IH|d IH|d IH|d IH|d IH|d IH|d IH|d IH|d IH|d IH]; intros p n;
    cbn [NilEmpty.string_of_uint digitpart_tail Pos.of_uint_acc];
    [now exists n|read_digit IH..].
Qed.

Lemma digitpart_tail_of_uint_zero (d : Decimal.uint) (n : nat) :
  exists n',
    digitpart_tail 0 n (NilEmpty.string_of_uint d)
    = (Z.of_N (Pos.of_uint d), n', "").
Proof.
  revert n.
  induction d as [|d IH|d IH|d IH|d IH|d IH|d IH|d IH|d IH|d IH|d IH]; intros n;
    cbn [NilEmpty.string_of_uint digitpart_tail Pos.of_uint].
  - now exists n.
  - apply IH.
  - apply (digitpart_tail_of_uint d 1 (S n)).
  - apply (digitpart_tail_of_uint d 2 (S n)).
  - apply (digitpart_tail_of_uint d 3 (S n)).
  - apply (digitpart_tail_of_uint d 4 (S n)).
  - apply (digitpart_tail_of_uint d 5 (S n)).
  - apply (digitpart_tail_of_uint d 6 (S n)).
  - apply (digitpart_tail_of_uint d 7 (S n)).
  - apply (digitpart_tail_of_uint d 8 (S n)).
  - apply (digitpart_tail_of_uint d 9 (S n)).
Qed.

Lemma digitpart_of_uint (d : Decimal.uint) :
  d <> Decimal.Nil ->
  exists n,
    digitpart (NilEmpty.string_of_uint d) = Some (Z.of_N (Pos.of_uint d), n, "").
Proof.
  intros Hd. destruct (digitpart_tail_of_uint_zero d 0) as (n & H).
  exists n. rewrite <- H. destruct d; [congruence|reflexivity..].
Qed.

Lemma string_of_uint_first (d : Decimal.uint) :
  d <> Decimal.Nil ->
  exists c r, NilEmpty.string_of_uint d = String c r /\ is_digit c = true.
Proof. destruct d; [congruence|intros _; eexists; eexists; split; reflexivity..]. Qed.

Lemma all_chars_of_uint (d : Decimal.uint) :
  all_chars is_digit (NilEmpty.string_of_uint d) = true.
Proof. induction d; simpl; auto. Qed.

Lemma is_digit_not_space (c : ascii) : is_digit c = true -> is_space c = false.
Proof.
  unfold is_digit, is_space. intros H. apply andb_true_iff in H.
  destruct H as [H1 H2]. apply Nat.leb_le in H1, H2.
  apply orb_false_iff. split.
  - apply andb_false_iff. right. apply Nat.leb_gt. lia.
  - apply Nat.eqb_neq. lia.
Qed.

Lemma rstrip_no_space (s : string) :
  all_chars (fun c => negb (is_space c)) s = true -> rstrip s = s.
Proof.
  induction s as [|c s IH]; simpl; [reflexivity|].
  intros H. apply andb_true_iff in H. destruct H as [Hc Hs].
  rewrite (IH Hs). destruct s; [|reflexivity].
  apply negb_true_iff in Hc. now rewrite Hc.
Qed.

Lemma all_chars_impl (p q : ascii -> bool) (s : string) :
  (forall c, p c = true -> q c = true) ->
  all_chars p s = true -> all_chars q s = true.
Proof.
  intros H. induction s as [|c s IH]; simpl; [reflexivity|].
  rewrite !andb_true_iff. intros [Hc Hs]. auto.
Qed.

Lemma strip_no_space (s : string) :
  all_chars (fun c => negb (is_space c)) s = true -> strip s = s.
Proof.
  intros H. unfold strip.
  assert (L : lstrip s = s).
  { destruct s as [|c s]; [reflexivity|]. simpl in *.
    apply andb_true_iff in H. destruct H as [Hc _].
    apply negb_true_iff in Hc. now rewrite Hc. }
  rewrite L. now apply rstrip_no_space.
Qed.

Lemma sign_or_digit_is_ascii (c : ascii) :
  sign_or_digit c = true -> (N_of_ascii c <? 128)%N = true.
Proof.
  destruct c as [b0 b1 b2 b3 b4 b5 b6 [|]]; [|intros _].
  - destruct b0, b1, b2, b3, b4, b5, b6; intros H; vm_compute in H; discriminate H.
  - destruct b0, b1, b2, b3, b4, b5, b6; reflexivity.
Qed.

(** A text of digits and signs is ASCII: [int] parses it as it is. *)
Lemma to_ascii_of_number (s : string) :
  all_chars sign_or_digit s = true -> decimal_and_space_to_ascii s = s.
Proof.
  intros H. unfold decimal_and_space_to_ascii.
  replace (is_ascii_text s) with true; [reflexivity|]. symmetry.
  induction s as [|c s IH]; simpl in *; [reflexivity|].
  apply andb_true_iff in H. destruct H as [Hc Hs].
  now rewrite (sign_or_digit_is_ascii c Hc), IH.
Qed.

(** What [str] prints for an integer: digits, after a minus sign when it
    is negative. *)
Lemma str_of_int_shape (z : Z) :
  exists d,
    d <> Decimal.Nil /\ Z.of_N (Pos.of_uint d) = Z.abs z /\
    str_of_int z
    = if z <? 0 then String "-" (NilEmpty.string_of_uint d)
      else NilEmpty.string_of_uint d.
Proof.
  unfold str_of_int. destruct z as [|p|p]; simpl.
  - exists (Decimal.D0 Decimal.Nil). repeat split. discriminate.
  - exists (Pos.to_uint p). split; [apply DecimalPos.Unsigned.to_uint_nonnil|].
    split; [now rewrite DecimalPos.Unsigned.of_to|].
    unfold NilZero.string_of_uint.
    pose proof (DecimalPos.Unsigned.to_uint_nonnil p).
    now destruct (Pos.to_uint p).
  - exists (Pos.to_uint p). split; [apply DecimalPos.Unsigned.to_uint_nonnil|].
    split; [now rewrite DecimalPos.Unsigned.of_to|].
    unfold NilZero.string_of_uint.
    pose proof (DecimalPos.Unsigned.to_uint_nonnil p).
    now destruct (Pos.to_uint p).
Qed.

Lemma str_of_int_chars (z : Z) : all_chars sign_or_digit (str_of_int z) = true.
Proof.
  destruct (str_of_int_shape z) as (d & _ & _ & ->).
  assert (H : all_chars sign_or_digit (NilEmpty.string_of_uint d) = true).
  { apply (all_chars_impl is_digit); [|apply all_chars_of_uint].
    intros c Hc. unfold sign_or_digit. now rewrite Hc. }
  destruct (z <? 0); [simpl; exact H|exact H].
Qed.

Lemma sign_or_digit_not_space (c : ascii) :
  sign_or_digit c = true -> negb (is_space c) = true.
Proof.
  unfold sign_or_digit. intros H. apply orb_true_iff in H.
  destruct H as [H|H].
  - now rewrite (is_digit_not_space c H).
  - apply Ascii.eqb_eq in H. now subst.
Qed.

Lemma int_of_str_str_of_int (z : Z) : int_of_str (str_of_int z) = Some z.
Proof.
  unfold int_of_str.
  rewrite (to_ascii_of_number _ (str_of_int_chars z)).
  rewrite strip_no_space
    by (apply (all_chars_impl sign_or_digit);
        [apply sign_or_digit_not_space|apply str_of_int_chars]).
  destruct (str_of_int_shape z) as (d & Hd & Hv & ->).
  destruct (digitpart_of_uint d Hd) as (n & Hp).
  destruct (z <? 0) eqn:Hz.
  - cbn [sign]. change (Ascii.eqb "-" "-") with true. cbv iota.
    rewrite Hp, Hv. f_equal. apply Z.ltb_lt in Hz. lia.
  - destruct (string_of_uint_first d Hd) as (c & r & Hs & Hc).
    assert (Hsign : sign (NilEmpty.string_of_uint d)
                    = (false, NilEmpty.string_of_uint d)).
    { rewrite Hs. unfold sign.
      destruct (Ascii.eqb c "-") eqn:E1.
      { apply Ascii.eqb_eq in E1. subst. discriminate. }
      destruct (Ascii.eqb c "+") eqn:E2; [|reflexivity].
      apply Ascii.eqb_eq in E2. subst. discriminate. }
    rewrite Hsign, Hp, Hv. f_equal. apply Z.ltb_ge in Hz. lia.
Qed.

(** X15. [int] reads back what [str] prints: the texts that [summary]
    shows for the hour and the wind speed of a record, given to
    [from_strings] with texts of a temperature and a rainfall, give a
    record with the same hour and the same wind speed, whatever integers
    they are. *)
Theorem printed_numbers_read_back (r : ThreeHourForecast)
  (temperature_str rainfall_str : string) (t rf : pyfloat) :
  float_of_str temperature_str = Some t ->
  float_of_str rainfall_str = Some rf ->
  int_of_str (str_of_int (hour r)) = Some (hour r) /\
  int_of_str (str_of_int (wind_speed r)) = Some (wind_speed r) /\
  from_strings (str_of_int (hour r)) temperature_str (str_of_int (wind_speed r))
    (wind_direction r) rainfall_str
  = Ok (mkForecast (hour r) t (wind_speed r) (wind_direction r) rf).
Proof.
  intros Ht Hr.
  pose proof (int_of_str_str_of_int (hour r)) as Hh.
  pose proof (int_of_str_str_of_int (wind_speed r)) as Hw.
  split; [exact Hh|]. split; [exact Hw|].
  unfold from_strings, py_int, py_float.
  rewrite Hh. cbn [bind]. rewrite Ht. cbn [bind].
  rewrite Hw. cbn [bind]. rewrite Hr. reflexivity.
Qed.

Lemma printed_numbers_read_back_witness :
  int_of_str (str_of_int (-7)) = Some (-7) /\
  int_of_str (str_of_int 120) = Some 120 /\
  from_strings (str_of_int (-7)) "21.5" (str_of_int 120) "NE" "0"
  = Ok (mkForecast (-7) (FDec false 215 (-1)) 120 "NE" (FDec false 0 0)).
Proof.
  apply (printed_numbers_read_back
           (mkForecast (-7) FNan 120 "NE" FNan) "21.5" "0"
           (FDec false 215 (-1)) (FDec false 0 0));
    reflexivity.
Defined.

Lemma split_at_char (p : ascii -> bool) (c : ascii) (a1 a2 r1 r2 : string) :
  p c = false ->
  all_chars p a1 = true -> all_chars p a2 = true ->
  a1 ++ String c r1 = a2 ++ String c r2 ->
  a1 = a2 /\ r1 = r2.
Proof.
  intros Hc. revert a2. induction a1 as [|x a1 IH]; intros [|y a2]; simpl.
  - intros _ _ [= ->]. auto.
  - intros _ H [= <- _]. apply andb_true_iff in H. destruct H as [H _]. congruence.
  - intros H _ [= -> _]. apply andb_true_iff in H. destruct H as [H _]. congruence.
  - intros H1 H2 [= <- E]. apply andb_true_iff in H1, H2.
    destruct (IH a2 (proj2 H1) (proj2 H2) E) as [-> ->]. auto.
Qed.

Lemma str_of_int_injective (a b : Z) : str_of_int a = str_of_int b -> a = b.
Proof.
  intros H. pose proof (int_of_str_str_of_int a) as Ha.
  rewrite H, (int_of_str_str_of_int b) in Ha. congruence.
Qed.

(** X16. The line [summary] prints tells the hour and the wind speed
    apart: two records have the same summary exactly when they have the
    same hour and the same wind speed (temperature, direction and rainfall
    are not shown). *)
Theorem summary_tells_hour_and_speed (r1 r2 : ThreeHourForecast) :
  summary r1 = summary r2
  <-> hour r1 = hour r2 /\ wind_speed r1 = wind_speed r2.
Proof.
  unfold summary. split.
  - intros H.
    change (":00 - " ++ str_of_int (wind_speed r1) ++ " km/h")
      with (String ":" ("00 - " ++ str_of_int (wind_speed r1) ++ " km/h")) in H.
    change (":00 - " ++ str_of_int (wind_speed r2) ++ " km/h")
      with (String ":" ("00 - " ++ str_of_int (wind_speed r2) ++ " km/h")) in H.
    apply (split_at_char sign_or_digit) in H;
      [|reflexivity|apply str_of_int_chars|apply str_of_int_chars].
    destruct H as [Hh Hw]. split; [now apply str_of_int_injective|].
    simpl in Hw. injection Hw as Hw.
    change (" km/h") with (String " " "km/h") in Hw.
    apply (split_at_char sign_or_digit) in Hw;
      [|reflexivity|apply str_of_int_chars|apply str_of_int_chars].
    now apply str_of_int_injective.
  - intros [-> ->]. reflexivity.
Qed.

